(** * generate-builder-opts: the setter generator of cmd/generate-builder-opts/main.go

    A shallow embedding of [run] and of the functions it calls
    ([findRequestedStructType], [funcTypeIdent], [withTypeDef], [withFuncs],
    [getInnerFn], [withFirstCharLower], [withFirstCharUppper]) over the part of
    go/ast the program reads and builds, followed by the properties of the
    generator.

    Go strings are byte sequences: they are [string]s here, one [ascii] per
    byte.  The parser and the printer are the program's collaborators and are
    parameters of [run]. *)

From Stdlib Require Import ZArith Lia Bool List Ascii String.
From stdpp Require Import base gmap strings list.

Local Open Scope Z_scope.

(** ** go/ast, as far as the program touches it *)

Module ast.

(** The tokens of go/token that occur: the keywords of a [GenDecl] and the
    assignment operators. *)
Inductive Token : Type := IMPORT | CONST | TYPE | VAR | ASSIGN | DEFINE.

(** Expressions (types are expressions in go/ast), fields and the two
    statements the generated bodies use.  Identifiers in naming positions
    ([Sel], [Names], declaration names) are kept as their [Name] string.
    [OtherExpr] stands for the remaining expression nodes (binary, call,
    index, ...), as their kind and their sub-expressions in [Walk]'s order.
    A [*FieldList] is the list of its fields; [Results] of a function type
    may be nil.  A [*BlockStmt] is the list of its statements.  The parser is
    run without comments, so [Doc] and [Comment] of a field are nil and left
    out. *)
#[local] Unset Elimination Schemes.
Inductive Expr : Type :=
| Ident (Name : string)
| BasicLit (Value : string)
| ParenExpr (X : Expr)
| SelectorExpr (X : Expr) (Sel : string)
| StarExpr (X : Expr)
| Ellipsis (Elt : option Expr)
| ArrayType (Len : option Expr) (Elt : Expr)
| MapType (Key : Expr) (Value : Expr)
| ChanType (Value : Expr)
| FuncType (Params : list Field) (Results : option (list Field))
| StructType (Fields : list Field)
| InterfaceType (Methods : list Field)
| FuncLit (Type_ : Expr) (Body : list Stmt)
| OtherExpr (kind : string) (children : list Expr)
with Field : Type :=
| mkField (Names : list string) (Type_ : Expr) (Tag : option string)
with Stmt : Type :=
| ReturnStmt (Results : list Expr)
| AssignStmt (Lhs : list Expr) (Tok : Token) (Rhs : list Expr).
#[local] Set Elimination Schemes.

Definition Names (f : Field) : list string :=
  match f with mkField ns _ _ => ns end.

Definition Type_ (f : Field) : Expr :=
  match f with mkField _ t _ => t end.

Definition Tag (f : Field) : option string :=
  match f with mkField _ _ t => t end.

Inductive Spec : Type :=
| ImportSpec (Path : string)
| ValueSpec (Names : list string) (Type_ : option Expr) (Values : list Expr)
| TypeSpec (Name : string) (Type_ : Expr).

Inductive Decl : Type :=
| BadDecl
| GenDecl (Tok : Token) (Specs : list Spec)
| FuncDecl (Name : string) (Type_ : Expr) (Body : list Stmt).

Record File : Type := mkFile { Name : string; Decls : list Decl }.

(** The nodes [Walk] hands to a visitor.  An identifier that stands as an
    expression is the [NExpr] of an [Ident]; one that names a field or is the
    [Sel] of a selector is an [NIdent]. *)
Inductive Node : Type :=
| NExpr (e : Expr)
| NField (f : Field)
| NStmt (s : Stmt)
| NFieldList (fields : list Field)
| NBlockStmt (stmts : list Stmt)
| NIdent (name : string)
| NBasicLit (value : string).

Section Walk.
Context {S : Type}.
(** The visitor of [Inspect]: it reads and updates the variables it closes
    over (the state [S]) and answers whether to descend. *)
Variable f : Node -> S -> S * bool.

Definition walkList {A : Type} (walk : A -> S -> S) : list A -> S -> S :=
  fix go (l : list A) (s : S) : S :=
    match l with
    | [] => s
    | x :: l' => go l' (walk x s)
    end.

Definition walkOpt {A : Type} (walk : A -> S -> S) (o : option A) (s : S) : S :=
  match o with
  | None => s
  | Some x => walk x s
  end.

Definition visitLeaf (n : Node) (s : S) : S := fst (f n s).

(** Visit [n]; walk its children only if the visitor says so. *)
Definition visitThen (n : Node) (children : S -> S) (s : S) : S :=
  let '(s, descend) := f n s in
  if descend then children s else s.

(** [ast.Walk] with the [inspector] visitor: visit the node, and only when
    the visitor answers true walk the children in go/ast's order.  (The
    closing [Visit(nil)] is left out: the visitor of this program does
    nothing on nil.) *)
Fixpoint WalkExpr (e : Expr) (s : S) {struct e} : S :=
  let '(s, descend) := f (NExpr e) s in
  if negb descend then s else
  match e with
  | Ident _ | BasicLit _ => s
  | ParenExpr x => WalkExpr x s
  | SelectorExpr x sel => visitLeaf (NIdent sel) (WalkExpr x s)
  | StarExpr x => WalkExpr x s
  | Ellipsis elt => walkOpt WalkExpr elt s
  | ArrayType len elt => WalkExpr elt (walkOpt WalkExpr len s)
  | MapType k v => WalkExpr v (WalkExpr k s)
  | ChanType v => WalkExpr v s
  | FuncType ps rs =>
      walkOpt (fun l => visitThen (NFieldList l) (walkList WalkField l)) rs
        (visitThen (NFieldList ps) (walkList WalkField ps) s)
  | StructType fs => visitThen (NFieldList fs) (walkList WalkField fs) s
  | InterfaceType ms => visitThen (NFieldList ms) (walkList WalkField ms) s
  | FuncLit t body => visitThen (NBlockStmt body) (walkList WalkStmt body) (WalkExpr t s)
  | OtherExpr _ es => walkList WalkExpr es s
  end
with WalkField (fd : Field) (s : S) {struct fd} : S :=
  let '(s, descend) := f (NField fd) s in
  if negb descend then s else
  match fd with
  | mkField names t tag =>
      let s := walkList (fun n => visitLeaf (NIdent n)) names s in
      let s := WalkExpr t s in
      walkOpt (fun v => visitLeaf (NBasicLit v)) tag s
  end
with WalkStmt (st : Stmt) (s : S) {struct st} : S :=
  let '(s, descend) := f (NStmt st) s in
  if negb descend then s else
  match st with
  | ReturnStmt rs => walkList WalkExpr rs s
  | AssignStmt lhs _ rhs => walkList WalkExpr rhs (walkList WalkExpr lhs s)
  end.

Definition Inspect (n : Node) (s : S) : S :=
  match n with
  | NExpr e => WalkExpr e s
  | NField fd => WalkField fd s
  | NStmt st => WalkStmt st s
  | NFieldList l => visitThen n (walkList WalkField l) s
  | NBlockStmt l => visitThen n (walkList WalkStmt l) s
  | NIdent _ | NBasicLit _ => visitLeaf n s
  end.
End Walk.

(** "Contains a [SelectorExpr] anywhere": one structural predicate over the
    node kinds. *)
Fixpoint exprHasSelector (e : Expr) : bool :=
  match e with
  | Ident _ | BasicLit _ => false
  | SelectorExpr _ _ => true
  | ParenExpr x | StarExpr x | ChanType x => exprHasSelector x
  | Ellipsis elt => from_option exprHasSelector false elt
  | ArrayType len elt => from_option exprHasSelector false len || exprHasSelector elt
  | MapType k v => exprHasSelector k || exprHasSelector v
  | FuncType ps rs =>
      existsb fieldHasSelector ps || from_option (existsb fieldHasSelector) false rs
  | StructType fs | InterfaceType fs => existsb fieldHasSelector fs
  | FuncLit t body => exprHasSelector t || existsb stmtHasSelector body
  | OtherExpr _ es => existsb exprHasSelector es
  end
with fieldHasSelector (fd : Field) : bool :=
  match fd with
  | mkField _ t _ => exprHasSelector t
  end
with stmtHasSelector (st : Stmt) : bool :=
  match st with
  | ReturnStmt rs => existsb exprHasSelector rs
  | AssignStmt lhs _ rhs => existsb exprHasSelector lhs || existsb exprHasSelector rhs
  end.

(** Structural induction over the three node types at once. *)
Section induction.
Variables (P : Expr -> Prop) (Q : Field -> Prop) (R : Stmt -> Prop).
Hypothesis HIdent : forall n, P (Ident n).
Hypothesis HBasicLit : forall v, P (BasicLit v).
Hypothesis HParen : forall x, P x -> P (ParenExpr x).
Hypothesis HSelector : forall x sel, P x -> P (SelectorExpr x sel).
Hypothesis HStar : forall x, P x -> P (StarExpr x).
Hypothesis HEllipsis : forall elt, from_option P True elt -> P (Ellipsis elt).
Hypothesis HArray : forall len elt,
  from_option P True len -> P elt -> P (ArrayType len elt).
Hypothesis HMap : forall k v, P k -> P v -> P (MapType k v).
Hypothesis HChan : forall v, P v -> P (ChanType v).
Hypothesis HFunc : forall ps rs,
  Forall Q ps -> from_option (Forall Q) True rs -> P (FuncType ps rs).
Hypothesis HStruct : forall fs, Forall Q fs -> P (StructType fs).
Hypothesis HInterface : forall ms, Forall Q ms -> P (InterfaceType ms).
Hypothesis HFuncLit : forall t body, P t -> Forall R body -> P (FuncLit t body).
Hypothesis HOther : forall k es, Forall P es -> P (OtherExpr k es).
Hypothesis HField : forall ns t tag, P t -> Q (mkField ns t tag).
Hypothesis HReturn : forall rs, Forall P rs -> R (ReturnStmt rs).
Hypothesis HAssign : forall lhs tok rhs,
  Forall P lhs -> Forall P rhs -> R (AssignStmt lhs tok rhs).

Definition all_of {A : Type} {T : A -> Prop} (h : forall a, T a) : forall l, Forall T l :=
  fix go (l : list A) : Forall T l :=
    match l with
    | [] => List.Forall_nil T
    | a :: l' => List.Forall_cons T a l' (h a) (go l')
    end.

Fixpoint Expr_all (e : Expr) : P e :=
  match e with
  | Ident n => HIdent n
  | BasicLit v => HBasicLit v
  | ParenExpr x => HParen x (Expr_all x)
  | SelectorExpr x sel => HSelector x sel (Expr_all x)
  | StarExpr x => HStar x (Expr_all x)
  | Ellipsis elt =>
      HEllipsis elt
        match elt return from_option P True elt with
        | Some x => Expr_all x
        | None => I
        end
  | ArrayType len elt =>
      HArray len elt
        match len return from_option P True len with
        | Some x => Expr_all x
        | None => I
        end
        (Expr_all elt)
  | MapType k v => HMap k v (Expr_all k) (Expr_all v)
  | ChanType v => HChan v (Expr_all v)
  | FuncType ps rs =>
      HFunc ps rs (all_of Field_all ps)
        match rs return from_option (Forall Q) True rs with
        | Some l => all_of Field_all l
        | None => I
        end
  | StructType fs => HStruct fs (all_of Field_all fs)
  | InterfaceType ms => HInterface ms (all_of Field_all ms)
  | FuncLit t body => HFuncLit t body (Expr_all t) (all_of Stmt_all body)
  | OtherExpr k es => HOther k es (all_of Expr_all es)
  end
with Field_all (fd : Field) : Q fd :=
  match fd with
  | mkField ns t tag => HField ns t tag (Expr_all t)
  end
with Stmt_all (st : Stmt) : R st :=
  match st with
  | ReturnStmt rs => HReturn rs (all_of Expr_all rs)
  | AssignStmt lhs tok rhs =>
      HAssign lhs tok rhs (all_of Expr_all lhs) (all_of Expr_all rhs)
  end.
End induction.

End ast.

(** ** Errors, panics and the library functions called on bytes *)

(** An [error] value with its message; the constructor tells who made it:
    [fmt.Errorf] in this program, [parser.ParseFile], or [printer.Fprint]. *)
Inductive error : Type :=
| Errorf (msg : string)
| ParseError (msg : string)
| PrintError (msg : string).

(** A call either returns or panics. *)
Inductive outcome (A : Type) : Type :=
| Returns (a : A)
| Panics (msg : string).
Arguments Returns {A} a.
Arguments Panics {A} msg.

#[global] Instance outcome_bind : MBind outcome :=
  fun A B k m =>
    match m with
    | Returns a => k a
    | Panics msg => Panics msg
    end.

Definition byteVal (c : ascii) : Z := Z.of_N (N_of_ascii c).
Definition byteOf (z : Z) : ascii := ascii_of_N (Z.to_N z).

(** [utf8.RuneSelf]: bytes below it are ASCII. *)
Definition RuneSelf : Z := 0x80.

(** [unicode.IsLower(rune(b))] for a byte [b].  The rune is at most
    [unicode.MaxLatin1], so the answer is read off the Latin-1 property table,
    whose lower-case letters ([pLl]) are 'a'..'z', U+00B5, U+00DF..U+00F6 and
    U+00F8..U+00FF. *)
Definition unicode_IsLower (b : ascii) : bool :=
  let r := byteVal b in
  ((0x61 <=? r) && (r <=? 0x7A))
  || (r =? 0xB5)
  || ((0xDF <=? r) && (r <=? 0xF6))
  || ((0xF8 <=? r) && (r <=? 0xFF)).

(** U+FFFD, [utf8.RuneError], in UTF-8. *)
Definition RuneError : string :=
  String (byteOf 0xEF) (String (byteOf 0xBF) (String (byteOf 0xBD) EmptyString)).

(** [strings.ToLower] on the one-byte string [s[0:1]], the only argument the
    program gives it.  An ASCII byte takes the ASCII path ('A'..'Z' moved to
    'a'..'z').  A byte from [RuneSelf] on is not valid UTF-8 by itself:
    [strings.Map] decodes it as [utf8.RuneError] and writes U+FFFD for it. *)
Definition strings_ToLower (b : ascii) : string :=
  let c := byteVal b in
  if c <? RuneSelf then
    if (0x41 <=? c) && (c <=? 0x5A)
    then String (byteOf (c + (0x61 - 0x41))) EmptyString
    else String b EmptyString
  else RuneError.

(** [strings.ToUpper] on the one-byte string [s[0:1]]. *)
Definition strings_ToUpper (b : ascii) : string :=
  let c := byteVal b in
  if c <? RuneSelf then
    if (0x61 <=? c) && (c <=? 0x7A)
    then String (byteOf (c - (0x61 - 0x41))) EmptyString
    else String b EmptyString
  else RuneError.

(** ** cmd/generate-builder-opts/main.go *)

Import ast.

(** [flagStringSet] is a [map[string]struct{}] used as a set. *)
Abbreviation flagStringSet := (gset string).

Record flagOpts : Type := mkFlagOpts {
  definitionFile : string;
  outFile : string;
  structTypeName : string;
  exportFnType : bool;
  generateForUnexportedFields : bool;
  ignoreUnsupported : bool;
  skipStructFields : flagStringSet
}.

Definition isStructType (e : Expr) : bool :=
  match e with StructType _ => true | _ => false end.

(** The inner loop of [findRequestedStructType], over [genDecl.Specs]; a hit
    is the [*ast.TypeSpec], as its name and its type. *)
Fixpoint findInSpecs (specs : list Spec) (structName : string) : option (string * Expr) :=
  match specs with
  | [] => None
  | TypeSpec name typ :: specs' =>
      if isStructType typ && bool_decide (name = structName)
      then Some (name, typ)
      else findInSpecs specs' structName
  | _ :: specs' => findInSpecs specs' structName
  end.

(** The outer loop, over [f.Decls]. *)
Fixpoint findInDecls (decls : list Decl) (structName : string) : option (string * Expr) :=
  match decls with
  | [] => None
  | GenDecl TYPE specs :: decls' =>
      match findInSpecs specs structName with
      | Some typeSpec => Some typeSpec
      | None => findInDecls decls' structName
      end
  | _ :: decls' => findInDecls decls' structName
  end.

Definition findRequestedStructType (f : File) (structName : string) : option (string * Expr) :=
  findInDecls (Decls f) structName.

Definition withFirstCharLower (s : string) : string :=
  match s with
  | EmptyString => s
  | String b rest => strings_ToLower b +:+ rest
  end.

Definition withFirstCharUppper (s : string) : string :=
  match s with
  | EmptyString => s
  | String b rest => strings_ToUpper b +:+ rest
  end.

Definition funcTypeIdent (structName : string) (exportFnType : bool) : string :=
  let casedStructName :=
    if exportFnType then withFirstCharUppper structName
    else withFirstCharLower structName in
  casedStructName +:+ "FieldSetter".

(** The declaration [withTypeDef] appends. *)
Definition typeDef (fnIdent : string) (paramType : Expr) : Decl :=
  GenDecl TYPE [TypeSpec fnIdent (FuncType [mkField [] paramType None] None)].

Definition appendDecl (astOut : File) (d : Decl) : File :=
  mkFile (Name astOut) (Decls astOut ++ [d]).

Definition withTypeDef (astOut : File) (fnIdent : string) (paramType : Expr) : File :=
  appendDecl astOut (typeDef fnIdent paramType).

Definition getInnerFn (structTypeIdent fieldIdent outerParamIdent : string)
    (innerParamType : Expr) : Expr :=
  let paramIdent := withFirstCharLower structTypeIdent +:+ "Gen" in
  FuncLit
    (FuncType [mkField [paramIdent] innerParamType None] None)
    [AssignStmt [SelectorExpr (Ident paramIdent) fieldIdent] ASSIGN [Ident outerParamIdent]].

(** The declaration [newFunc] that [withFuncs] builds for one field name. *)
Definition newFunc (structName fnIdent : string) (fnParamType fieldType : Expr)
    (fieldName : string) : Decl :=
  let outerParamIdent := withFirstCharLower fieldName +:+ "Gen" in
  FuncDecl ("Set" +:+ withFirstCharUppper fieldName)
    (FuncType [mkField [outerParamIdent] fieldType None]
       (Some [mkField [] (Ident fnIdent) None]))
    [ReturnStmt [getInnerFn structName fieldName outerParamIdent fnParamType]].

(** The callback [withFuncs] gives to [ast.Inspect]; its state is the captured
    variable [fieldContainsImport]. *)
Definition importVisitor (n : Node) (fieldContainsImport : bool) : bool * bool :=
  match n with
  | NExpr (SelectorExpr _ _) => (true, false)
  | _ => (fieldContainsImport, true)
  end.

Definition fieldContainsImport (field : Field) : bool :=
  Inspect importVisitor (NField field) false.

Section withFuncs.
(** The parameters of [withFuncs] other than [astOut]; [structType] is the
    located [*ast.TypeSpec], its name and its type. *)
Variable structType : string * Expr.
Variable fnIdent : string.
Variable fnParamType : Expr.
Variables generateForUnexportedFields ignoreUnsupported : bool.
Variable skipStructFields : flagStringSet.

(** [for _, fieldName := range field.Names].  [numFnsAdded] counts the
    declarations appended to the slice [astOut.Decls], whose length is an
    [int] itself, so the counter is a [Z] that never wraps.  Indexing the
    empty name, [fieldName.Name[0]], panics. *)
Fixpoint withFuncs_names (fieldType : Expr) (names : list string)
    (astOut : File) (numFnsAdded : Z) : outcome (File * Z) :=
  match names with
  | [] => Returns (astOut, numFnsAdded)
  | fieldName :: names' =>
      if decide (fieldName ∈ skipStructFields)
      then withFuncs_names fieldType names' astOut numFnsAdded
      else
        match fieldName with
        | EmptyString => Panics "runtime error: index out of range [0] with length 0"
        | String b _ =>
            if unicode_IsLower b && negb generateForUnexportedFields
            then withFuncs_names fieldType names' astOut numFnsAdded
            else
              withFuncs_names fieldType names'
                (appendDecl astOut
                   (newFunc structType.1 fnIdent fnParamType fieldType fieldName))
                (numFnsAdded + 1)
        end
  end.

(** [for _, field := range structTypeTyped.Fields.List]; the third component
    is the error of a [return] from inside the loop. *)
Fixpoint withFuncs_fields (fields : list Field) (astOut : File) (numFnsAdded : Z)
    : outcome (File * Z * option error) :=
  match fields with
  | [] => Returns (astOut, numFnsAdded, None)
  | field :: fields' =>
      if (length (Names field) =? 0)%nat then
        if ignoreUnsupported
        then withFuncs_fields fields' astOut numFnsAdded
        else Returns (astOut, numFnsAdded, Some (Errorf "embedded fields disallowed"))
      else if fieldContainsImport field then
        if ignoreUnsupported
        then withFuncs_fields fields' astOut numFnsAdded
        else Returns (astOut, numFnsAdded,
                      Some (Errorf "cannot generate for fields whose type is imported"))
      else
        '(astOut, numFnsAdded) ← withFuncs_names (Type_ field) (Names field)
                                    astOut numFnsAdded;
        withFuncs_fields fields' astOut numFnsAdded
  end.

(** [withFuncs] changes [astOut] in place and returns an error: the result
    is the file as the call leaves it, and the error. *)
Definition withFuncs (astOut : File) : outcome (File * option error) :=
  match structType.2 with
  | StructType fields =>
      '(astOut, numFnsAdded, err) ← withFuncs_fields fields astOut 0;
      match err with
      | Some e => Returns (astOut, Some e)
      | None =>
          if numFnsAdded =? 0
          then Returns (astOut,
                        Some (Errorf "no fields in struct (aside from ignored errors)"))
          else Returns (astOut, None)
      end
  | _ => Panics "bad type for struct type"
  end.
End withFuncs.

Section run.
(** What the printer writes: the bytes in the buffer [run] returns. *)
Context {Out : Type}.
(** [parser.ParseFile(fset, filename, nil, 0)] on the named file: the syntax
    tree, or the message of its error. *)
Variable ParseFile : string -> File + string.
(** [printer.Fprint] into a fresh buffer: what it wrote, and the message of
    its error if it failed. *)
Variable Fprint : File -> Out * option string.

(** [run] returns a reader and an error, either of which may be nil. *)
Definition run (opts : flagOpts) : outcome (option Out * option error) :=
  match ParseFile (definitionFile opts) with
  | inr msg => Returns (None, Some (ParseError msg))
  | inl astF =>
      match findRequestedStructType astF (structTypeName opts) with
      | None =>
          Returns (None, Some (Errorf "could not find struct type in definition file"))
      | Some structType =>
          let fnTypeIdent := funcTypeIdent structType.1 (exportFnType opts) in
          let fnParamType := StarExpr (Ident structType.1) in
          let astOut := mkFile (Name astF) [] in
          let astOut := withTypeDef astOut fnTypeIdent fnParamType in
          '(astOut, err) ← withFuncs structType fnTypeIdent fnParamType
                             (generateForUnexportedFields opts)
                             (ignoreUnsupported opts)
                             (skipStructFields opts) astOut;
          match err with
          | Some e => Returns (None, Some e)
          | None =>
              let '(out, err) := Fprint astOut in
              match err with
              | Some msg => Returns (None, Some (PrintError msg))
              | None => Returns (Some out, None)
              end
          end
      end
  end.
End run.

(** ** The rules of the field classifier, as predicates *)

(** Rule 1: the group has no names. *)
Definition embedded (g : Field) : bool := bool_decide (Names g = []).

(** Rule 2: the type expression contains a qualified name somewhere. *)
Definition referencesImportedPackage (g : Field) : bool := exprHasSelector (Type_ g).

Definition unsupported (g : Field) : bool := embedded g || referencesImportedPackage g.

Definition supported (g : Field) : bool := negb (unsupported g).

(** The error a rejected group is reported with: rule 1 is tried first. *)
Definition unsupportedError (g : Field) : error :=
  if embedded g then Errorf "embedded fields disallowed"
  else Errorf "cannot generate for fields whose type is imported".

Definition unsupportedFieldError (e : error) : Prop :=
  e = Errorf "embedded fields disallowed"
  \/ e = Errorf "cannot generate for fields whose type is imported".

Definition emptyResult : error := Errorf "no fields in struct (aside from ignored errors)".

Definition typeNotFound : error := Errorf "could not find struct type in definition file".

Definition firstByteLower (name : string) : bool :=
  match name with
  | EmptyString => false
  | String b _ => unicode_IsLower b
  end.

(** Rules 3 and 4, for a name of a group that passed rules 1 and 2. *)
Definition inSkipSet (skip : flagStringSet) (name : string) : bool :=
  bool_decide (name ∈ skip).

Definition unexportedRule (genUnexported : bool) (name : string) : bool :=
  firstByteLower name && negb genUnexported.

Definition eligibleName (genUnexported : bool) (skip : flagStringSet) (name : string) : bool :=
  negb (inSkipSet skip name) && negb (unexportedRule genUnexported name).

(** The fields that get a setter, with their types, in the order of the
    struct: groups in declaration order, names in order within a group. *)
Definition eligibleFields (genUnexported : bool) (skip : flagStringSet)
    (fields : list Field) : list (Expr * string) :=
  flat_map
    (fun g =>
       if unsupported g then []
       else map (pair (Type_ g)) (List.filter (eligibleName genUnexported skip) (Names g)))
    fields.

(** Why a name gets no setter: it is in the skip-set, or it is unexported
    and setters for unexported fields are off. *)
Definition nameFiltered (genUnexported : bool) (skip : flagStringSet) (name : string) : bool :=
  inSkipSet skip name || unexportedRule genUnexported name.

(** Why a group gets no setter: it is unsupported and skipped as such, or
    each of its names is filtered. *)
Definition groupFiltered (ignoreUnsupp genUnexported : bool) (skip : flagStringSet)
    (g : Field) : bool :=
  if unsupported g then ignoreUnsupp
  else forallb (nameFiltered genUnexported skip) (Names g).

(** go/parser gives every identifier a name of at least one byte. *)
Definition identsNonEmpty (fields : list Field) : bool :=
  forallb (fun g => forallb (fun n => negb (bool_decide (n = EmptyString))) (Names g)) fields.

(** A name whose first byte the inner loop would index although there is
    none. *)
Definition namesPanic (skip : flagStringSet) (names : list string) : bool :=
  existsb (fun n => negb (inSkipSet skip n) && bool_decide (n = EmptyString)) names.

Definition indexPanic : string := "runtime error: index out of range [0] with length 0".

(** A group at which the outer loop stops: a rejected one, or one with such a
    name. *)
Definition stops (ignoreUnsupp : bool) (skip : flagStringSet) (g : Field) : bool :=
  if unsupported g then negb ignoreUnsupp else namesPanic skip (Names g).

(** ** The type locator, as a search in a list *)

(** The top-level type declarations of a file, in file order. *)
Definition typeSpecsOf (d : Decl) : list (string * Expr) :=
  match d with
  | GenDecl TYPE specs =>
      omap (fun s => match s with TypeSpec n t => Some (n, t) | _ => None end) specs
  | _ => []
  end.

Definition typeSpecs (f : File) : list (string * Expr) := flat_map typeSpecsOf (Decls f).

Definition isRequested (structName : string) (ts : string * Expr) : bool :=
  isStructType ts.2 && bool_decide (ts.1 = structName).

Definition notRequested (structName : string) (ts : string * Expr) : Prop :=
  ~ (ts.1 = structName /\ isStructType ts.2 = true).

(** ** Reading the synthesized declarations *)

(** The field a setter declaration assigns, for a declaration of the shape
    [newFunc] builds. *)
Definition assignedField (d : Decl) : option string :=
  match d with
  | FuncDecl _ _ [ReturnStmt [FuncLit _ [AssignStmt [SelectorExpr _ sel] ASSIGN _]]] =>
      Some sel
  | _ => None
  end.

Definition declName (d : Decl) : option string :=
  match d with
  | FuncDecl n _ _ => Some n
  | GenDecl _ [TypeSpec n _] => Some n
  | _ => None
  end.

Definition isFuncDecl (d : Decl) : bool :=
  match d with FuncDecl _ _ _ => true | _ => false end.

(** The parameter of a setter, the parameter of the closure it returns, and
    the two sides of the assignment in the closure. *)
Record setterShape : Type := mkShape {
  outerParam : string;
  innerParam : string;
  assignLhs : Expr;
  assignRhs : Expr
}.

Definition shapeOf (d : Decl) : option setterShape :=
  match d with
  | FuncDecl _ (FuncType [mkField [outer] _ _] _)
      [ReturnStmt
         [FuncLit (FuncType [mkField [inner] _ _] _) [AssignStmt [lhs] ASSIGN [rhs]]]] =>
      Some (mkShape outer inner lhs rhs)
  | _ => None
  end.

(** How many declarations of a file are setters assigning field [X]. *)
Definition setterCount (X : string) (decls : list Decl) : nat :=
  length (List.filter (fun d => bool_decide (assignedField d = Some X)) decls).

Definition occurrences (X : string) (names : list string) : nat :=
  length (List.filter (fun n => bool_decide (n = X)) names).

(** ** [run] as a function of the struct's groups *)

Definition appendDecls (astOut : File) (ds : list Decl) : File :=
  mkFile (Name astOut) (Decls astOut ++ ds).

(** The setters of the eligible fields of a struct, in order. *)
Definition settersOf (sname fnIdent : string) (fnParamType : Expr) (genUnexported : bool)
    (skip : flagStringSet) (fields : list Field) : list Decl :=
  map (fun p => newFunc sname fnIdent fnParamType p.1 p.2)
    (eligibleFields genUnexported skip fields).

(** The file handed to the printer by a run that gets that far. *)
Definition synthesized (opts : flagOpts) (astF : File) (sname : string)
    (fields : list Field) : File :=
  let fnIdent := funcTypeIdent sname (exportFnType opts) in
  let paramType := StarExpr (Ident sname) in
  mkFile (Name astF)
    (typeDef fnIdent paramType
     :: settersOf sname fnIdent paramType
          (generateForUnexportedFields opts) (skipStructFields opts) fields).

(** The end of [run]: print, and return the buffer or the printer's error. *)
Definition printed {Out : Type} (Fprint : File -> Out * option string) (astOut : File)
    : outcome (option Out * option error) :=
  let '(out, err) := Fprint astOut in
  match err with
  | Some msg => Returns (None, Some (PrintError msg))
  | None => Returns (Some out, None)
  end.

(** The options with one more name in the skip-set. *)
Definition withSkipped (opts : flagOpts) (N : string) : flagOpts :=
  mkFlagOpts (definitionFile opts) (outFile opts) (structTypeName opts)
    (exportFnType opts) (generateForUnexportedFields opts) (ignoreUnsupported opts)
    ({[N]} ∪ skipStructFields opts).

(** The field names of the struct a run works on, all groups alike; none if
    the file does not parse or has no such struct. *)
Definition structFieldNames (ParseFile : string -> File + string) (opts : flagOpts)
    : list string :=
  match ParseFile (definitionFile opts) with
  | inl astF =>
      match findRequestedStructType astF (structTypeName opts) with
      | Some (_, StructType fields) => flat_map Names fields
      | _ => []
      end
  | inr _ => []
  end.

(** ** First byte and first character *)

(** The bytes [unicode.IsLower] accepts, as code points of Latin-1. *)
Definition latin1Lower (v : Z) : Prop :=
  0x61 <= v <= 0x7A \/ v = 0xB5 \/ 0xDF <= v <= 0xF6 \/ 0xF8 <= v <= 0xFF.

(** The first character of a UTF-8 string, as a code point, with the rest of
    the string.  Characters up to U+00FF are decoded (one byte, or a lead
    byte C2 or C3 and a continuation byte); beyond them the function gives no
    answer. *)
Definition firstCharacter (s : string) : option (Z * string) :=
  match s with
  | EmptyString => None
  | String b0 rest =>
      let v0 := byteVal b0 in
      if v0 <? RuneSelf then Some (v0, rest)
      else if (v0 =? 0xC2) || (v0 =? 0xC3) then
        match rest with
        | EmptyString => None
        | String b1 rest' =>
            let v1 := byteVal b1 in
            if (0x80 <=? v1) && (v1 <=? 0xBF)
            then Some ((v0 - 0xC0) * 64 + (v1 - 0x80), rest')
            else None
        end
      else None
  end.

(** UTF-8 of a code point below U+0800. *)
Definition utf8 (cp : Z) : string :=
  if cp <? RuneSelf then String (byteOf cp) EmptyString
  else String (byteOf (0xC0 + cp / 64)) (String (byteOf (0x80 + cp mod 64)) EmptyString).

(** Lower case and upper case of a code point up to U+00FF, after the Unicode
    simple case mappings: the letters A..Z, U+00C0..U+00DE without the
    multiplication sign, and their lower-case partners 0x20 above; U+00FF and
    U+00B5 have their capitals at U+0178 and U+039C. *)
Definition lowerCase (cp : Z) : Z :=
  if ((0x41 <=? cp) && (cp <=? 0x5A))
     || ((0xC0 <=? cp) && (cp <=? 0xDE) && negb (cp =? 0xD7))
  then cp + 0x20 else cp.

Definition upperCase (cp : Z) : Z :=
  if ((0x61 <=? cp) && (cp <=? 0x7A))
     || ((0xE0 <=? cp) && (cp <=? 0xFE) && negb (cp =? 0xF7))
  then cp - 0x20
  else if cp =? 0xFF then 0x178
  else if cp =? 0xB5 then 0x39C
  else cp.

(** What "the name with its first character lower-cased" (or upper-cased)
    says, for names that begin with a character up to U+00FF. *)
Definition lowerFirstCharacter (s : string) : option string :=
  match firstCharacter s with
  | Some (cp, rest) => Some (utf8 (lowerCase cp) +:+ rest)
  | None => None
  end.

Definition upperFirstCharacter (s : string) : option string :=
  match firstCharacter s with
  | Some (cp, rest) => Some (utf8 (upperCase cp) +:+ rest)
  | None => None
  end.

(** ** The completeness invariant, in its own words *)

(** Whether a code point up to U+00FF is a lower-case letter. *)
Definition lowerCaseLetter (cp : Z) : bool :=
  ((0x61 <=? cp) && (cp <=? 0x7A))
  || (cp =? 0xB5)
  || ((0xDF <=? cp) && (cp <=? 0xF6))
  || ((0xF8 <=? cp) && (cp <=? 0xFF)).

(** "First character lowercase": said of the first character of the name,
    not of its first byte. *)
Definition firstCharacterLowercase (name : string) : bool :=
  match firstCharacter name with
  | Some (cp, _) => lowerCaseLetter cp
  | None => false
  end.

(** The names of a struct as they occur, each with its group, in order. *)
Definition fieldOccurrences (fields : list Field) : list (Field * string) :=
  flat_map (fun g => map (pair g) (Names g)) fields.

(** The four rules that exclude an occurrence: the embedded-group rule, the
    imported-type rule, membership in the skip-set, and the unexported-field
    rule (first character lowercase while setters for unexported fields are
    off). *)
Definition excluded (genUnexported : bool) (skip : flagStringSet)
    (occ : Field * string) : bool :=
  embedded occ.1
  || referencesImportedPackage occ.1
  || inSkipSet skip occ.2
  || (firstCharacterLowercase occ.2 && negb genUnexported).

(** How often [X] occurs in the struct without a rule excluding it. *)
Definition admittedOccurrences (genUnexported : bool) (skip : flagStringSet)
    (fields : list Field) (X : string) : nat :=
  length (List.filter
            (fun occ => bool_decide (occ.2 = X) && negb (excluded genUnexported skip occ))
            (fieldOccurrences fields)).

(** ** The rest of main.go: the flag value, [getFlags], [fail] and [main] *)

(** [strings.Split(s, sep)] for a separator of one byte: the pieces between
    the separators, one more than there are separators. *)
Fixpoint strings_Split (sep : ascii) (s : string) : list string :=
  match s with
  | EmptyString => [EmptyString]
  | String c s' =>
      if Ascii.eqb c sep then EmptyString :: strings_Split sep s'
      else
        match strings_Split sep s' with
        | piece :: pieces => String c piece :: pieces
        | [] => [String c EmptyString]
        end
  end.

(** [strings.Join(elems, sep)]. *)
Fixpoint strings_Join (elems : list string) (sep : string) : string :=
  match elems with
  | [] => EmptyString
  | [x] => x
  | x :: elems' => x +:+ sep +:+ strings_Join elems' sep
  end.

(** [flagStringSet.Set]: the set the receiver holds afterwards, and the
    error returned.  The flag package calls it once for every occurrence of
    the flag on the command line. *)
Definition flagStringSet_Set (s : flagStringSet) (str : string)
    : flagStringSet * option error :=
  let slc := strings_Split ","%char str in
  let result := foldl (fun (result : flagStringSet) str => {[str]} ∪ result) ∅ slc in
  (result, None).

(** [flagStringSet.String].  [keys] is the order in which [range] yields
    the keys of the map; Go leaves that order open. *)
Definition flagStringSet_String (keys : list string) : string :=
  strings_Join keys ", ".

(** What a process can change: the two output streams and the files, each
    with its bytes. *)
Record world : Type := mkWorld {
  stdout : string;
  stderr : string;
  files : gmap string string
}.

(** The end of the process: [os.Exit(code)], or the return of [main] with
    code 0. *)
Inductive ended : Type :=
| Exit (code : Z) (w : world).

Definition newline : string := String (byteOf 10) EmptyString.

(** [err.Error()]. *)
Definition error_Error (e : error) : string :=
  match e with
  | Errorf msg | ParseError msg | PrintError msg => msg
  end.

Definition fail (msg : string) (w : world) : ended :=
  let w :=
    if bool_decide (msg = EmptyString) then w
    else mkWorld (stdout w) (stderr w +:+ msg +:+ newline) (files w) in
  Exit 1 w.

(** The bytes of [s] from offset [n] on. *)
Fixpoint dropBytes (n : nat) (s : string) : string :=
  match n, s with
  | O, _ => s
  | S n', String _ s' => dropBytes n' s'
  | S _, EmptyString => EmptyString
  end.

(** A file opened without [O_TRUNC] and written from offset 0: the bytes
    written replace the beginning, what lies beyond them stays. *)
Definition overwrite (old data : string) : string :=
  data +:+ dropBytes (String.length data) old.

Section process.
Variable ParseFile : string -> File + string.
Variable Fprint : File -> string * option string.
(** [fs.Parse(os.Args[1:])] on the flag set [getFlags] declares, with
    [flag.ExitOnError]: the options as the flags fill them and the error
    returned, or the way [Parse] itself ended the process. *)
Variable flagParse : list string -> world -> flagOpts * option string + ended.
(** What [fs.Usage()] prints to standard error. *)
Variable usage : string.
(** [os.OpenFile(name, os.O_RDWR|os.O_CREATE, 0644)]: the message of the
    error for a name that can neither be opened nor created. *)
Variable openError : world -> string -> option string.
(** [io.Copy(dest, outReader)]: how many of the bytes the destination (a file
    name, or the empty name for standard output) takes, and the message of
    the error that stops the copy. *)
Variable write : string -> string -> nat * option string.

Definition getFlags (args : list string) (w : world) : flagOpts + ended :=
  match flagParse args w with
  | inr e => inr e
  | inl (opts, Some msg) => inr (fail msg w)
  | inl (opts, None) =>
      if bool_decide (definitionFile opts = EmptyString)
         || bool_decide (structTypeName opts = EmptyString)
      then inr (fail EmptyString (mkWorld (stdout w) (stderr w +:+ usage) (files w)))
      else inl opts
  end.

(** The copy at the end of [main], to standard output or to the file just
    opened; opening creates a file that is not there. *)
Definition copyOut (opts : flagOpts) (out : string) (w : world) : ended :=
  let '(n, err) := write (outFile opts) out in
  let data := String.substring 0 n out in
  let w :=
    if bool_decide (outFile opts = EmptyString)
    then mkWorld (stdout w +:+ data) (stderr w) (files w)
    else mkWorld (stdout w) (stderr w)
           (<[outFile opts := overwrite (default EmptyString (files w !! outFile opts)) data]>
              (files w)) in
  match err with
  | Some msg => fail msg w
  | None => Exit 0 w
  end.

Definition main (args : list string) (w : world) : outcome ended :=
  match getFlags args w with
  | inr e => Returns e
  | inl opts =>
      '(outReader, err) ← run ParseFile Fprint opts;
      match err with
      | Some e => Returns (fail (error_Error e) w)
      | None =>
          match
            (if bool_decide (outFile opts = EmptyString) then None
             else openError w (outFile opts))
          with
          | Some msg => Returns (fail msg w)
          | None =>
              match outReader with
              | Some out => Returns (copyOut opts out w)
              | None => Panics "runtime error: invalid memory address or nil pointer dereference"
              end
          end
      end
  end.
End process.

(** ** More readings of the synthesized declarations *)

(** The declared function type: its name and the type of its parameter. *)
Definition funcTypeOf (d : Decl) : option (string * Expr) :=
  match d with
  | GenDecl TYPE [TypeSpec n (FuncType [mkField [] paramType _] None)] => Some (n, paramType)
  | _ => None
  end.

(** Of a setter: the type of its parameter, its result types, and the
    signature of the closure it returns. *)
Definition setterParamType (d : Decl) : option Expr :=
  match d with
  | FuncDecl _ (FuncType [mkField [_] ty _] _) _ => Some ty
  | _ => None
  end.

Definition setterResults (d : Decl) : option (list Expr) :=
  match d with
  | FuncDecl _ (FuncType _ (Some results)) _ => Some (map Type_ results)
  | _ => None
  end.

Definition closureSignature (d : Decl) : option (list Expr * option (list Field)) :=
  match d with
  | FuncDecl _ _ [ReturnStmt [FuncLit (FuncType params results) _]] =>
      Some (map Type_ params, results)
  | _ => None
  end.

(** The expressions directly below a statement and an expression, in
    [Walk]'s order, and the expressions at any depth below one. *)
Definition stmtExprs (st : Stmt) : list Expr :=
  match st with
  | ReturnStmt rs => rs
  | AssignStmt lhs _ rhs => lhs ++ rhs
  end.

Definition subExprs (e : Expr) : list Expr :=
  match e with
  | Ident _ | BasicLit _ => []
  | ParenExpr x | StarExpr x | ChanType x | SelectorExpr x _ => [x]
  | Ellipsis elt => option_list elt
  | ArrayType len elt => option_list len ++ [elt]
  | MapType k v => [k; v]
  | FuncType ps rs => map Type_ ps ++ map Type_ (default [] rs)
  | StructType fs | InterfaceType fs => map Type_ fs
  | FuncLit t body => t :: flat_map stmtExprs body
  | OtherExpr _ es => es
  end.

Inductive within : Expr -> Expr -> Prop :=
| within_here (e : Expr) : within e e
| within_below (e c d : Expr) : c ∈ subExprs e -> within c d -> within e d.

Definition commaFree (s : string) : bool :=
  forallb (fun c => negb (Ascii.eqb c ","%char)) (list_ascii_of_string s).

(** The errors of [run], each with what brings it about. *)
Inductive runError {Out : Type} (ParseFile : string -> File + string)
    (Fprint : File -> Out * option string) (opts : flagOpts) : error -> Prop :=
| parse_failed (msg : string) :
    ParseFile (definitionFile opts) = inr msg ->
    runError ParseFile Fprint opts (ParseError msg)
| no_such_struct (astF : File) :
    ParseFile (definitionFile opts) = inl astF ->
    findRequestedStructType astF (structTypeName opts) = None ->
    runError ParseFile Fprint opts typeNotFound
| group_rejected (astF : File) (sname : string) (fields : list Field) (g : Field) :
    ParseFile (definitionFile opts) = inl astF ->
    findRequestedStructType astF (structTypeName opts) = Some (sname, StructType fields) ->
    g ∈ fields -> unsupported g = true -> ignoreUnsupported opts = false ->
    runError ParseFile Fprint opts (unsupportedError g)
| nothing_generated (astF : File) (sname : string) (fields : list Field) :
    ParseFile (definitionFile opts) = inl astF ->
    findRequestedStructType astF (structTypeName opts) = Some (sname, StructType fields) ->
    eligibleFields (generateForUnexportedFields opts) (skipStructFields opts) fields = [] ->
    runError ParseFile Fprint opts emptyResult
| print_failed (astF : File) (sname : string) (fields : list Field) (out : Out)
    (msg : string) :
    ParseFile (definitionFile opts) = inl astF ->
    findRequestedStructType astF (structTypeName opts) = Some (sname, StructType fields) ->
    Fprint (synthesized opts astF sname fields) = (out, Some msg) ->
    runError ParseFile Fprint opts (PrintError msg).

(** Whether a declaration stays when the setters of the names failing
    [keep] are taken out. *)
Definition keepsDecl (keep : string -> bool) (d : Decl) : bool :=
  match assignedField d with
  | Some name => keep name
  | None => true
  end.

Definition isNot (X : string) (name : string) : bool := negb (bool_decide (name = X)).

Definition exportedFirstByte (name : string) : bool := negb (firstByteLower name).

(** ** Example inputs *)

(** A printer that hands the syntax tree through, to look at what [run]
    gives the printer. *)
Definition astPrinter (f : File) : File * option string := (f, None).

(** A parser that finds [f] in every file. *)
Definition parsesTo (f : File) (filename : string) : File + string := inl f.

(** A printer that writes the package clause only, for the examples that
    follow the bytes to their destination. *)
Definition packageClause (f : File) : string * option string :=
  ("package " +:+ Name f, None).

(** Command-line parsing that yields [opts] whatever the arguments. *)
Definition parsedAs (opts : flagOpts) (args : list string) (w : world)
    : flagOpts * option string + ended :=
  inl (opts, None).

(** A destination that takes every byte. *)
Definition takesAll (name data : string) : nat * option string :=
  (String.length data, None).

Definition noOpenError (w : world) (name : string) : option string := None.

(** The defaults of the flags with an out file. *)
Definition toFile (typeName outFile : string) : flagOpts :=
  mkFlagOpts "in.go" outFile typeName true false true ∅.

(** The defaults of the flags, for a struct name. *)
Definition defaultOpts (typeName : string) : flagOpts :=
  mkFlagOpts "in.go" "" typeName true false true ∅.

Definition unexportedToo (typeName : string) : flagOpts :=
  mkFlagOpts "in.go" "" typeName true true true ∅.

Definition strictOpts (skip : flagStringSet) : flagOpts :=
  mkFlagOpts "in.go" "" "A" true false false skip.

Definition structFile (name : string) (fields : list Field) : File :=
  mkFile "genbuildertest" [GenDecl TYPE [TypeSpec name (StructType fields)]].

(** The struct of the README. *)
Definition readmeA : File :=
  structFile "A"
    [mkField ["B"] (Ident "string") None;
     mkField ["C"] (Ident "int") None;
     mkField ["D"] (Ident "bool") None;
     mkField ["e"] (Ident "float32") None;
     mkField ["F"] (InterfaceType []) None].

(** Scenario C of the specification: the only field has an imported type. *)
Definition structImported : File :=
  structFile "A" [mkField ["T"] (StarExpr (SelectorExpr (Ident "otherpkg") "Thing")) None].

(** Scenario D: every field is in the skip-set. *)
Definition structCD : File :=
  structFile "A" [mkField ["C"] (Ident "int") None; mkField ["D"] (Ident "bool") None].

Definition skipCD : flagOpts :=
  mkFlagOpts "in.go" "" "A" true false false ({["C"]} ∪ {["D"]}).

(** Scenario E: a defined string type named [A]. *)
Definition stringA : File :=
  mkFile "genbuildertest" [GenDecl TYPE [TypeSpec "A" (Ident "string")]].

(** Two blank fields: a struct go/parser and the type checker accept. *)
Definition blankTwice : File :=
  structFile "A" [mkField ["_"] (Ident "int") None; mkField ["_"] (Ident "bool") None].

(** Two fields whose names differ in the case of the first letter. *)
Definition fooAndFoo : File :=
  structFile "S" [mkField ["foo"] (Ident "int") None; mkField ["Foo"] (Ident "string") None].

(** A field named as its struct. *)
Definition structAA : File := structFile "A" [mkField ["A"] (Ident "int") None].

(** Names that begin with an underscore and with a two-byte letter. *)
Definition underscoreAndAccent : File :=
  structFile "A" [mkField ["_x"; "élan"] (Ident "int") None; mkField ["e"] (Ident "int") None].

Definition elan : File := structFile "A" [mkField ["élan"] (Ident "int") None].

(** The struct [É] with the field [é]. *)
Definition accentStruct : File := structFile "É" [mkField ["é"] (Ident "int") None].

(** A field whose name begins with a three-byte character (U+1EA1, bytes
    E1 BA A1), next to an exported one. *)
Definition dotBelow : File :=
  structFile "A" [mkField ["ạ"] (Ident "int") None; mkField ["B"] (Ident "int") None].

(** * Properties *)

(** ** [ast.Inspect] with the program's callback *)

Lemma walkList_names (names : list string) (s : bool) :
  walkList (fun n => visitLeaf importVisitor (NIdent n)) names s = s.
Proof. revert s; induction names as [|n names IH]; intros s; simpl; auto. Qed.

Lemma walkList_orb {A : Type} (walk : A -> bool -> bool) (h : A -> bool) (l : list A) :
  Forall (fun x => forall s, walk x s = s || h x) l ->
  forall s, walkList walk l s = s || existsb h l.
Proof.
  induction 1 as [|x l Hx _ IH]; intros s; simpl.
  - now rewrite orb_false_r.
  - rewrite IH, Hx. now rewrite orb_assoc.
Qed.

Lemma Walk_importVisitor :
  (forall e s, WalkExpr importVisitor e s = s || exprHasSelector e)
  /\ (forall fd s, WalkField importVisitor fd s = s || fieldHasSelector fd)
  /\ (forall st s, WalkStmt importVisitor st s = s || stmtHasSelector st).
Proof.
  pose (P := fun e => forall s, WalkExpr importVisitor e s = s || exprHasSelector e).
  pose (Q := fun fd => forall s, WalkField importVisitor fd s = s || fieldHasSelector fd).
  pose (R := fun st => forall s, WalkStmt importVisitor st s = s || stmtHasSelector st).
  assert (HP : forall e, P e).
  { apply (Expr_all P Q R); subst P Q R; cbn beta; intros; simpl.
    - now rewrite orb_false_r.
    - now rewrite orb_false_r.
    - auto.
    - now rewrite orb_true_r.
    - auto.
    - destruct elt; simpl in *; [auto | now rewrite orb_false_r].
    - destruct len; simpl in *.
      + rewrite H0, H. now rewrite orb_assoc.
      + now rewrite H0.
    - rewrite H0, H. now rewrite orb_assoc.
    - auto.
    - unfold visitThen; simpl.
      destruct rs as [rs|]; simpl in *.
      + rewrite (walkList_orb _ fieldHasSelector rs) by assumption.
        rewrite (walkList_orb _ fieldHasSelector ps) by assumption.
        now rewrite orb_assoc.
      + rewrite (walkList_orb _ fieldHasSelector ps) by assumption.
        now rewrite orb_false_r.
    - now apply walkList_orb.
    - now apply walkList_orb.
    - unfold visitThen; simpl.
      rewrite (walkList_orb _ stmtHasSelector body) by assumption.
      rewrite H. now rewrite orb_assoc.
    - now apply walkList_orb.
    - rewrite walkList_names, H. now destruct tag.
    - now apply walkList_orb.
    - rewrite (walkList_orb _ exprHasSelector rhs) by assumption.
      rewrite (walkList_orb _ exprHasSelector lhs) by assumption.
      now rewrite orb_assoc. }
  split; [exact HP|].
  split.
  - intros [ns t tag] s. simpl. rewrite walkList_names, HP. now destruct tag.
  - intros [rs|lhs tok rhs] s; simpl.
    + apply walkList_orb. apply Forall_forall. intros; apply HP.
    + rewrite (walkList_orb _ exprHasSelector rhs), (walkList_orb _ exprHasSelector lhs);
        try (apply Forall_forall; intros; apply HP).
      now rewrite orb_assoc.
Qed.

(** The flag [ast.Inspect] leaves in [fieldContainsImport] says whether the
    group's type expression contains a qualified name. *)
Lemma fieldContainsImport_spec (field : Field) :
  fieldContainsImport field = referencesImportedPackage field.
Proof.
  unfold fieldContainsImport, referencesImportedPackage, Inspect.
  destruct Walk_importVisitor as (_ & HQ & _). rewrite HQ.
  now destruct field.
Qed.

(** ** The loops of [withFuncs] *)

Lemma appendDecls_nil (astOut : File) : appendDecls astOut [] = astOut.
Proof. destruct astOut; unfold appendDecls; simpl. now rewrite app_nil_r. Qed.

Lemma appendDecls_cons (astOut : File) (d : Decl) (ds : list Decl) :
  appendDecls (appendDecl astOut d) ds = appendDecls astOut (d :: ds).
Proof. unfold appendDecls, appendDecl; simpl. now rewrite <- app_assoc. Qed.

Lemma appendDecls_app (astOut : File) (ds ds' : list Decl) :
  appendDecls (appendDecls astOut ds) ds' = appendDecls astOut (ds ++ ds').
Proof. unfold appendDecls; simpl. now rewrite <- app_assoc. Qed.

Lemma embedded_length (g : Field) : (length (Names g) =? 0)%nat = embedded g.
Proof. unfold embedded. now destruct (Names g). Qed.

Lemma settersOf_length (sname fnIdent : string) (pt : Expr) (gen : bool)
    (skip : flagStringSet) (fs : list Field) :
  length (settersOf sname fnIdent pt gen skip fs) = length (eligibleFields gen skip fs).
Proof. unfold settersOf. now rewrite length_map. Qed.

Section loops.
Variable structType : string * Expr.
Variable fnIdent : string.
Variable fnParamType : Expr.
Variables gen ign : bool.
Variable skip : flagStringSet.

Let names_loop := withFuncs_names structType fnIdent fnParamType gen skip.
Let fields_loop := withFuncs_fields structType fnIdent fnParamType gen ign skip.
Let setter (p : Expr * string) : Decl :=
  newFunc structType.1 fnIdent fnParamType p.1 p.2.

(** The inner loop appends the setters of the eligible names, in order, and
    counts them; it panics when it meets an empty name outside the
    skip-set. *)
Lemma withFuncs_names_spec (ty : Expr) (names : list string) (astOut : File) (n : Z) :
  names_loop ty names astOut n =
    if namesPanic skip names then Panics indexPanic
    else
      let chosen := List.filter (eligibleName gen skip) names in
      Returns (appendDecls astOut (map (fun x => setter (ty, x)) chosen),
               n + Z.of_nat (length chosen)).
Proof.
  subst names_loop setter. revert astOut n.
  induction names as [|x names IH]; intros astOut n; simpl.
  - now rewrite appendDecls_nil, Z.add_0_r.
  - unfold eligibleName, inSkipSet.
    destruct (decide (x ∈ skip)) as [Hin|Hin].
    + rewrite (bool_decide_eq_true_2 _ Hin). simpl. apply IH.
    + rewrite (bool_decide_eq_false_2 _ Hin). simpl.
      destruct x as [|b rest]; simpl; [reflexivity|].
      unfold unexportedRule; simpl.
      destruct (unicode_IsLower b && negb gen); simpl.
      * apply IH.
      * rewrite IH. destruct (namesPanic skip names); [reflexivity|].
        cbn zeta. rewrite appendDecls_cons. f_equal. f_equal.
        unfold eligibleName, inSkipSet, unexportedRule. lia.
Qed.

Let setters := settersOf structType.1 fnIdent fnParamType gen skip.

Lemma settersOf_app (fs fs' : list Field) :
  setters (fs ++ fs') = setters fs ++ setters fs'.
Proof. unfold setters, settersOf, eligibleFields. now rewrite flat_map_app, map_app. Qed.

(** The outer loop runs through groups at which it does not stop, appending
    their setters. *)
Lemma withFuncs_fields_app (pre rest : list Field) (astOut : File) (n : Z) :
  Forall (fun g => stops ign skip g = false) pre ->
  fields_loop (pre ++ rest) astOut n =
    fields_loop rest (appendDecls astOut (setters pre))
      (n + Z.of_nat (length (setters pre))).
Proof.
  subst fields_loop. intros Hpre. revert astOut n.
  induction Hpre as [|g pre Hg _ IH]; intros astOut n.
  - simpl. now rewrite appendDecls_nil, Z.add_0_r.
  - change ((g :: pre) ++ rest) with (g :: (pre ++ rest)).
    change (g :: pre) with ([g] ++ pre). rewrite settersOf_app.
    cbn [withFuncs_fields].
    rewrite embedded_length, fieldContainsImport_spec.
    unfold stops, unsupported in Hg.
    unfold setters at 1 3. unfold settersOf, eligibleFields, unsupported. cbn [flat_map].
    destruct (embedded g); simpl in Hg |- *.
    + apply negb_false_iff in Hg. subst ign. now rewrite IH.
    + destruct (referencesImportedPackage g); simpl in Hg |- *.
      * apply negb_false_iff in Hg. subst ign. now rewrite IH.
      * fold names_loop. rewrite withFuncs_names_spec, Hg. cbn zeta. simpl.
        rewrite IH, appendDecls_app, app_nil_r, map_map. simpl.
        rewrite length_app, !length_map. f_equal. lia.
Qed.

(** At a rejected group the loop returns its error, whatever the names of
    the group and the skip-set are. *)
Lemma withFuncs_fields_reject (g : Field) (rest : list Field) (astOut : File) (n : Z) :
  unsupported g = true -> ign = false ->
  fields_loop (g :: rest) astOut n = Returns (astOut, n, Some (unsupportedError g)).
Proof.
  subst fields_loop. intros Hg ->. cbn [withFuncs_fields].
  rewrite embedded_length, fieldContainsImport_spec. unfold unsupportedError.
  unfold unsupported in Hg. destruct (embedded g); [reflexivity|].
  simpl in Hg. now rewrite Hg.
Qed.

(** An ignored group leaves no trace. *)
Lemma withFuncs_fields_ignore (g : Field) (rest : list Field) (astOut : File) (n : Z) :
  unsupported g = true -> ign = true ->
  fields_loop (g :: rest) astOut n = fields_loop rest astOut n.
Proof.
  subst fields_loop. intros Hg ->. cbn [withFuncs_fields].
  rewrite embedded_length, fieldContainsImport_spec.
  unfold unsupported in Hg. destruct (embedded g); [reflexivity|].
  simpl in Hg. now rewrite Hg.
Qed.

Lemma withFuncs_fields_panic (g : Field) (rest : list Field) (astOut : File) (n : Z) :
  unsupported g = false -> namesPanic skip (Names g) = true ->
  fields_loop (g :: rest) astOut n = Panics indexPanic.
Proof.
  subst fields_loop. intros Hg Hp. cbn [withFuncs_fields].
  rewrite embedded_length, fieldContainsImport_spec.
  unfold unsupported in Hg. apply orb_false_iff in Hg as [-> ->].
  fold names_loop. now rewrite withFuncs_names_spec, Hp.
Qed.

Lemma withFuncs_fields_all (fields : list Field) (astOut : File) (n : Z) :
  Forall (fun g => stops ign skip g = false) fields ->
  fields_loop fields astOut n =
    Returns (appendDecls astOut (setters fields),
             n + Z.of_nat (length (setters fields)), None).
Proof.
  intros H. rewrite <- (app_nil_r fields) at 1.
  now rewrite withFuncs_fields_app.
Qed.
End loops.

(** ** The type locator *)

Lemma find_split {A : Type} (p : A -> bool) (l : list A) (x : A) :
  List.find p l = Some x <->
  exists pre post, l = pre ++ x :: post /\ p x = true /\ Forall (fun y => p y = false) pre.
Proof.
  split.
  - induction l as [|a l IH]; simpl; [discriminate|].
    destruct (p a) eqn:Ha.
    + intros [= ->]. now exists [], l.
    + intros H. destruct (IH H) as (pre & post & -> & Hx & Hpre).
      exists (a :: pre), post. auto.
  - intros (pre & post & -> & Hx & Hpre).
    induction Hpre as [|a pre Ha _ IH]; simpl; [now rewrite Hx|now rewrite Ha].
Qed.

Lemma find_none_iff {A : Type} (p : A -> bool) (l : list A) :
  List.find p l = None <-> Forall (fun y => p y = false) l.
Proof.
  induction l as [|a l IH]; simpl; [easy|].
  destruct (p a) eqn:Ha.
  - split; [discriminate|]. intros H. inversion H; congruence.
  - rewrite IH. split; [auto|]. intros H. now inversion H.
Qed.

Lemma findInSpecs_find (specs : list Spec) (structName : string) :
  findInSpecs specs structName =
    List.find (isRequested structName) (typeSpecsOf (GenDecl TYPE specs)).
Proof.
  induction specs as [|s specs IH]; [reflexivity|].
  destruct s as [path|ns t vs|name typ]; simpl; try apply IH.
  unfold isRequested at 1; simpl.
  destruct (isStructType typ && bool_decide (name = structName)); [reflexivity|apply IH].
Qed.

Lemma find_app {A : Type} (p : A -> bool) (l l' : list A) :
  List.find p (l ++ l') =
    match List.find p l with Some x => Some x | None => List.find p l' end.
Proof. induction l as [|a l IH]; simpl; [reflexivity|]. now destruct (p a). Qed.

(** The two loops of [findRequestedStructType] return the first top-level
    type declaration with the requested name and a struct type. *)
Lemma findRequestedStructType_find (f : File) (structName : string) :
  findRequestedStructType f structName = List.find (isRequested structName) (typeSpecs f).
Proof.
  unfold findRequestedStructType, typeSpecs.
  induction (Decls f) as [|d decls IH]; [reflexivity|].
  cbn [flat_map]. rewrite find_app.
  destruct d as [|tok specs|n t b]; try exact IH.
  destruct tok; try exact IH.
  cbn [findInDecls]. rewrite findInSpecs_find, IH. reflexivity.
Qed.

Lemma findRequestedStructType_Some (f : File) (structName : string) (ts : string * Expr) :
  findRequestedStructType f structName = Some ts ->
  ts.1 = structName /\ exists fields, ts.2 = StructType fields.
Proof.
  rewrite findRequestedStructType_find. intros H.
  apply find_some in H as [_ H]. unfold isRequested in H.
  apply andb_true_iff in H as [Hs Hn]. apply bool_decide_eq_true in Hn.
  split; [assumption|]. destruct ts.2; try discriminate. eauto.
Qed.

(** ** [run] as a function of the struct's groups *)

Section run_spec.
Context {Out : Type}.
Variable ParseFile : string -> File + string.
Variable Fprint : File -> Out * option string.

Lemma run_eq (opts : flagOpts) (astF : File) (sname : string) (fields : list Field) :
  ParseFile (definitionFile opts) = inl astF ->
  findRequestedStructType astF (structTypeName opts) = Some (sname, StructType fields) ->
  run ParseFile Fprint opts =
    match List.find (stops (ignoreUnsupported opts) (skipStructFields opts)) fields with
    | Some g =>
        if unsupported g then Returns (None, Some (unsupportedError g))
        else Panics indexPanic
    | None =>
        match eligibleFields (generateForUnexportedFields opts) (skipStructFields opts)
                fields with
        | [] => Returns (None, Some emptyResult)
        | _ :: _ => printed Fprint (synthesized opts astF sname fields)
        end
    end.
Proof.
  intros Hparse Hfind. unfold run. rewrite Hparse, Hfind. cbn [fst snd].
  unfold withFuncs. cbn [snd].
  destruct (List.find _ fields) as [g|] eqn:Hstop.
  - apply find_split in Hstop as (pre & post & -> & Hg & Hpre).
    rewrite withFuncs_fields_app by assumption.
    unfold stops in Hg. destruct (unsupported g) eqn:Hu.
    + apply negb_true_iff in Hg.
      rewrite withFuncs_fields_reject by assumption. reflexivity.
    + rewrite withFuncs_fields_panic by assumption. reflexivity.
  - apply find_none_iff in Hstop.
    rewrite withFuncs_fields_all by assumption. cbn.
    rewrite settersOf_length.
    destruct (eligibleFields _ _ fields) as [|p ps] eqn:He.
    + reflexivity.
    + cbn [length]. rewrite Z.add_0_l.
      destruct (Z.of_nat (S (length ps)) =? 0) eqn:E; [apply Z.eqb_eq in E; lia|].
      unfold printed, synthesized, withTypeDef, appendDecl, appendDecls, settersOf.
      cbn. rewrite He. reflexivity.
Qed.
End run_spec.

(** A run that returns output went through every stage. *)
Lemma run_success_inv {Out : Type} (ParseFile : string -> File + string)
    (Fprint : File -> Out * option string) (opts : flagOpts) (out : Out) :
  run ParseFile Fprint opts = Returns (Some out, None) ->
  exists astF sname fields,
    ParseFile (definitionFile opts) = inl astF
    /\ findRequestedStructType astF (structTypeName opts) = Some (sname, StructType fields)
    /\ Forall (fun g => stops (ignoreUnsupported opts) (skipStructFields opts) g = false) fields
    /\ eligibleFields (generateForUnexportedFields opts) (skipStructFields opts) fields <> []
    /\ Fprint (synthesized opts astF sname fields) = (out, None).
Proof.
  intros Hrun.
  destruct (ParseFile (definitionFile opts)) as [astF|msg] eqn:Hparse;
    [|unfold run in Hrun; rewrite Hparse in Hrun; discriminate].
  destruct (findRequestedStructType astF (structTypeName opts)) as [[sname typ]|] eqn:Hfind;
    [|unfold run in Hrun; rewrite Hparse, Hfind in Hrun; discriminate].
  destruct (findRequestedStructType_Some _ _ _ Hfind) as [_ [fields Htyp]].
  simpl in Htyp. subst typ.
  rewrite (run_eq ParseFile Fprint opts astF sname fields Hparse Hfind) in Hrun.
  exists astF, sname, fields.
  destruct (List.find _ fields) as [g|] eqn:Hstop.
  - destruct (unsupported g); discriminate.
  - apply find_none_iff in Hstop.
    destruct (eligibleFields _ _ fields) as [|p ps] eqn:He; [discriminate|].
    unfold printed in Hrun.
    destruct (Fprint (synthesized opts astF sname fields)) as [o [msg|]] eqn:Hp;
      [discriminate|].
    injection Hrun as ->. repeat split; auto; try congruence.
Qed.

(** ** The scenarios of the specification *)

(** Scenarios A and B of the specification. *)
Example scenario_A_exported_only :
  exists astOut,
    run (parsesTo readmeA) astPrinter (defaultOpts "A") = Returns (Some astOut, None)
    /\ omap declName (Decls astOut) = ["AFieldSetter"; "SetB"; "SetC"; "SetD"; "SetF"].
Proof. eexists. split; reflexivity. Qed.

Example scenario_B_unexported_too :
  exists astOut,
    run (parsesTo readmeA) astPrinter (unexportedToo "A") = Returns (Some astOut, None)
    /\ omap declName (Decls astOut)
       = ["AFieldSetter"; "SetB"; "SetC"; "SetD"; "SetE"; "SetF"].
Proof. eexists. split; reflexivity. Qed.

(** ** C4: the type locator *)

Lemma isRequested_false (structName : string) (ts : string * Expr) :
  isRequested structName ts = false <-> notRequested structName ts.
Proof.
  unfold isRequested, notRequested. rewrite andb_false_iff, bool_decide_eq_false.
  destruct (isStructType ts.2); intuition congruence.
Qed.

(** C4.  [findRequestedStructType] returns the first top-level type
    declaration, in file order, whose name is the requested one and whose type
    is a struct.  When no declaration has both properties -- a declaration of
    that name that is not a struct counts as little as one of another name --
    it finds nothing and [run] fails with the one type-not-found error. *)
Theorem C4_first_struct_of_that_name (f : File) (structName : string) :
  match findRequestedStructType f structName with
  | Some ts =>
      ts.1 = structName /\ isStructType ts.2 = true
      /\ exists before after,
           typeSpecs f = before ++ ts :: after
           /\ Forall (notRequested structName) before
  | None =>
      Forall (notRequested structName) (typeSpecs f)
      /\ forall (Out : Type) (ParseFile : string -> File + string)
           (Fprint : File -> Out * option string) (opts : flagOpts),
           ParseFile (definitionFile opts) = inl f ->
           structTypeName opts = structName ->
           run ParseFile Fprint opts = Returns (None, Some typeNotFound)
  end.
Proof.
  destruct (findRequestedStructType f structName) as [ts|] eqn:Hfind.
  - rewrite findRequestedStructType_find in Hfind.
    apply find_split in Hfind as (pre & post & Heq & Hts & Hpre).
    unfold isRequested in Hts. apply andb_true_iff in Hts as [Hs Hn].
    apply bool_decide_eq_true in Hn. repeat split; auto.
    exists pre, post. split; [assumption|].
    eapply Forall_impl; [exact Hpre|]. intros t Ht. now apply isRequested_false.
  - split.
    + rewrite findRequestedStructType_find in Hfind. apply find_none_iff in Hfind.
      eapply Forall_impl; [exact Hfind|]. intros t Ht. now apply isRequested_false.
    + intros Out ParseFile Fprint opts Hparse Hname. unfold run.
      now rewrite Hparse, Hname, Hfind.
Qed.

Example scenario_E_not_a_struct :
  run (parsesTo stringA) astPrinter (defaultOpts "A") = Returns (None, Some typeNotFound)
  /\ run (parsesTo readmeA) astPrinter (defaultOpts "B") = Returns (None, Some typeNotFound).
Proof. split; reflexivity. Qed.

(** ** C2: nothing generated *)

Lemma eligibleName_filtered (genUnexported : bool) (skip : flagStringSet) (name : string) :
  eligibleName genUnexported skip name = negb (nameFiltered genUnexported skip name).
Proof. unfold eligibleName, nameFiltered. now rewrite negb_orb. Qed.

Lemma filter_none {A : Type} (p : A -> bool) (l : list A) :
  forallb (fun x => negb (p x)) l = true -> List.filter p l = [].
Proof.
  induction l as [|a l IH]; simpl; [reflexivity|].
  intros H. apply andb_true_iff in H as [Ha Hl].
  apply negb_true_iff in Ha. rewrite Ha. auto.
Qed.

Lemma nameFiltered_no_panic (genUnexported : bool) (skip : flagStringSet)
    (names : list string) :
  forallb (nameFiltered genUnexported skip) names = true -> namesPanic skip names = false.
Proof.
  unfold namesPanic. induction names as [|x names IH]; simpl; [reflexivity|].
  intros H. apply andb_true_iff in H as [Hx Hn]. rewrite (IH Hn), orb_false_r.
  unfold nameFiltered, unexportedRule in Hx.
  destruct (inSkipSet skip x); [reflexivity|]. simpl in *.
  destruct x; [discriminate|reflexivity].
Qed.

Lemma eligibleFields_none (ignoreUnsupp genUnexported : bool) (skip : flagStringSet)
    (fields : list Field) :
  forallb (groupFiltered ignoreUnsupp genUnexported skip) fields = true ->
  eligibleFields genUnexported skip fields = [].
Proof.
  unfold eligibleFields. induction fields as [|g fields IH]; simpl; [reflexivity|].
  intros H. apply andb_true_iff in H as [Hg Hf]. rewrite (IH Hf), app_nil_r.
  unfold groupFiltered in Hg. destruct (unsupported g); [reflexivity|].
  rewrite filter_none; [reflexivity|].
  rewrite forallb_forall in Hg |- *. intros x Hx.
  now rewrite eligibleName_filtered, negb_involutive, Hg.
Qed.

(** C2.  When every field of the located struct is filtered out -- its group
    skipped as unsupported, or the name in the skip-set or unexported with
    setters for unexported fields off -- [run] returns the empty-result error
    and a nil reader.  [withFuncs] leaves the function-type declaration alone
    in [astOut], and [run] drops that file: nothing is printed. *)
Theorem C2_nothing_generated_is_an_error {Out : Type}
    (ParseFile : string -> File + string) (Fprint : File -> Out * option string)
    (opts : flagOpts) (astF : File) (sname : string) (fields : list Field) :
  ParseFile (definitionFile opts) = inl astF ->
  findRequestedStructType astF (structTypeName opts) = Some (sname, StructType fields) ->
  forallb (groupFiltered (ignoreUnsupported opts) (generateForUnexportedFields opts)
             (skipStructFields opts)) fields = true ->
  run ParseFile Fprint opts = Returns (None, Some emptyResult)
  /\ let fnIdent := funcTypeIdent sname (exportFnType opts) in
     let paramType := StarExpr (Ident sname) in
     withFuncs (sname, StructType fields) fnIdent paramType
       (generateForUnexportedFields opts) (ignoreUnsupported opts) (skipStructFields opts)
       (withTypeDef (mkFile (Name astF) []) fnIdent paramType)
     = Returns (mkFile (Name astF) [typeDef fnIdent paramType], Some emptyResult).
Proof.
  intros Hparse Hfind Hall. pose proof Hall as Hall'.
  rewrite forallb_forall in Hall.
  assert (Hstop : Forall (fun g => stops (ignoreUnsupported opts) (skipStructFields opts) g
                                   = false) fields).
  { apply Forall_forall. intros g Hg.
    apply list_elem_of_In in Hg. specialize (Hall g Hg).
    unfold groupFiltered in Hall. unfold stops.
    destruct (unsupported g); [now rewrite Hall|].
    eapply nameFiltered_no_panic; eassumption. }
  split.
  - rewrite (run_eq ParseFile Fprint opts astF sname fields Hparse Hfind).
    apply find_none_iff in Hstop.
    now rewrite Hstop, (eligibleFields_none _ _ _ _ Hall').
  - cbn zeta. unfold withFuncs. cbn [snd].
    rewrite withFuncs_fields_all by assumption.
    unfold settersOf. rewrite (eligibleFields_none _ _ _ _ Hall'). reflexivity.
Qed.

Lemma C2_witness :
  run (parsesTo structCD) astPrinter skipCD = Returns (None, Some emptyResult).
Proof.
  apply (C2_nothing_generated_is_an_error (parsesTo structCD) astPrinter skipCD structCD "A"
           [mkField ["C"] (Ident "int") None; mkField ["D"] (Ident "bool") None]);
    reflexivity.
Defined.

(** ** C3: unsupported groups *)

Lemma identsNonEmpty_no_panic (skip : flagStringSet) (fields : list Field) (g : Field) :
  identsNonEmpty fields = true -> g ∈ fields -> namesPanic skip (Names g) = false.
Proof.
  unfold identsNonEmpty. rewrite forallb_forall. intros H Hg.
  apply list_elem_of_In in Hg. specialize (H g Hg).
  unfold namesPanic. induction (Names g) as [|x names IH]; simpl in *; [reflexivity|].
  apply andb_true_iff in H as [Hx Hn]. rewrite (IH Hn), orb_false_r.
  apply negb_true_iff in Hx. rewrite Hx. apply andb_false_r.
Qed.

Lemma unsupportedError_kind (g : Field) : unsupportedFieldError (unsupportedError g).
Proof. unfold unsupportedFieldError, unsupportedError. destruct (embedded g); auto. Qed.

Lemma unsupported_iff (g : Field) :
  unsupported g = true <-> Names g = [] \/ exprHasSelector (Type_ g) = true.
Proof.
  unfold unsupported, embedded, referencesImportedPackage.
  now rewrite orb_true_iff, bool_decide_eq_true.
Qed.

Lemma eligibleFields_supported (genUnexported : bool) (skip : flagStringSet)
    (fields : list Field) :
  eligibleFields genUnexported skip (List.filter supported fields)
  = eligibleFields genUnexported skip fields.
Proof.
  unfold eligibleFields, supported. induction fields as [|g fields IH]; simpl; [reflexivity|].
  destruct (unsupported g) eqn:Hg; simpl; [exact IH|]. now rewrite Hg, IH.
Qed.

(** C3.  For a parsed struct, [run] fails with an unsupported-field error
    exactly when [ignoreUnsupported] is off and some group is embedded or has
    a qualified name somewhere in its type expression, however deep.  The
    first such group decides the error -- the embedded test before the
    imported-type test -- without a look at its names or at the skip-set.
    With [ignoreUnsupported] on, these groups are skipped whole: the run is
    the run on the struct without them. *)
Theorem C3_unsupported_groups {Out : Type}
    (ParseFile : string -> File + string) (Fprint : File -> Out * option string)
    (opts : flagOpts) (astF : File) (sname : string) (fields : list Field) :
  ParseFile (definitionFile opts) = inl astF ->
  findRequestedStructType astF (structTypeName opts) = Some (sname, StructType fields) ->
  identsNonEmpty fields = true ->
  ((exists e, run ParseFile Fprint opts = Returns (None, Some e) /\ unsupportedFieldError e)
   <-> ignoreUnsupported opts = false
       /\ exists g, g ∈ fields /\ (Names g = [] \/ exprHasSelector (Type_ g) = true))
  /\ (forall before g after,
        fields = before ++ g :: after ->
        Forall (fun g' => unsupported g' = false) before ->
        unsupported g = true ->
        ignoreUnsupported opts = false ->
        run ParseFile Fprint opts = Returns (None, Some (unsupportedError g)))
  /\ (ignoreUnsupported opts = true ->
      forall (ParseFile' : string -> File + string) (astF' : File),
        ParseFile' (definitionFile opts) = inl astF' ->
        Name astF' = Name astF ->
        findRequestedStructType astF' (structTypeName opts)
          = Some (sname, StructType (List.filter supported fields)) ->
        run ParseFile' Fprint opts = run ParseFile Fprint opts).
Proof.
  intros Hparse Hfind Hids.
  pose proof (run_eq ParseFile Fprint opts astF sname fields Hparse Hfind) as Hrun.
  assert (Hnp : forall g, g ∈ fields -> namesPanic (skipStructFields opts) (Names g) = false)
    by (intros g Hg; now apply identsNonEmpty_no_panic with fields).
  split; [split|split].
  - (* an unsupported-field error only comes from a rejected group *)
    intros (e & He & Hkind). rewrite Hrun in He.
    destruct (List.find _ fields) as [g|] eqn:Hstop.
    + apply find_some in Hstop as [Hin Hg]. unfold stops in Hg.
      destruct (unsupported g) eqn:Hu; [|discriminate].
      apply negb_true_iff in Hg. split; [assumption|].
      exists g. split; [now apply list_elem_of_In|now apply unsupported_iff].
    + destruct (eligibleFields _ _ fields).
      * injection He as <-. destruct Hkind; discriminate.
      * unfold printed in He. destruct (Fprint _) as [o [msg|]].
        -- injection He as <-. destruct Hkind; discriminate.
        -- discriminate.
  - (* a rejected group makes the run fail with one *)
    intros (Hign & g & Hin & Hg). apply unsupported_iff in Hg.
    rewrite Hrun. destruct (List.find _ fields) as [g'|] eqn:Hstop.
    + apply find_some in Hstop as [Hin' Hg']. unfold stops in Hg'.
      destruct (unsupported g') eqn:Hu.
      * eexists. split; [reflexivity|apply unsupportedError_kind].
      * rewrite Hnp in Hg' by now apply list_elem_of_In. discriminate.
    + apply find_none_iff in Hstop. rewrite Forall_forall in Hstop.
      specialize (Hstop g Hin). unfold stops in Hstop. now rewrite Hg, Hign in Hstop.
  - (* the first rejected group decides *)
    intros before g after -> Hbefore Hg Hign. rewrite Hrun.
    assert (Hstop : List.find (stops (ignoreUnsupported opts) (skipStructFields opts))
                      (before ++ g :: after) = Some g).
    { apply find_split. exists before, after. split; [reflexivity|]. split.
      - unfold stops. now rewrite Hg, Hign.
      - apply Forall_forall. intros g' Hg'.
        rewrite Forall_forall in Hbefore. unfold stops. rewrite (Hbefore g' Hg').
        apply Hnp. apply elem_of_app. now left. }
    now rewrite Hstop, Hg.
  - (* ignored groups leave no trace *)
    intros Hign ParseFile' astF' Hparse' Hname Hfind'.
    rewrite Hrun, (run_eq ParseFile' Fprint opts astF' sname _ Hparse' Hfind').
    rewrite eligibleFields_supported.
    assert (Hall : forall fs, (forall g, g ∈ fs -> g ∈ fields) ->
              List.find (stops (ignoreUnsupported opts) (skipStructFields opts)) fs = None).
    { intros fs Hsub. apply find_none_iff, Forall_forall. intros g Hg.
      unfold stops. rewrite Hign. destruct (unsupported g); [reflexivity|].
      apply Hnp, Hsub, Hg. }
    rewrite (Hall fields) by auto.
    rewrite (Hall (List.filter supported fields)).
    2:{ intros g Hg. apply list_elem_of_In in Hg. apply filter_In in Hg as [Hg _].
        now apply list_elem_of_In. }
    unfold synthesized, settersOf. cbn [fst]. rewrite eligibleFields_supported, Hname.
    reflexivity.
Qed.

Lemma C3_witness :
  run (parsesTo structImported) astPrinter (strictOpts {["T"]})
  = Returns (None, Some (Errorf "cannot generate for fields whose type is imported")).
Proof.
  pose proof (C3_unsupported_groups (parsesTo structImported) astPrinter (strictOpts {["T"]})
                structImported "A"
                [mkField ["T"] (StarExpr (SelectorExpr (Ident "otherpkg") "Thing")) None]
                eq_refl eq_refl eq_refl) as (_ & Hfirst & _).
  exact (Hfirst [] _ [] eq_refl (List.Forall_nil _) eq_refl eq_refl).
Defined.

Example scenario_C_imported_type :
  run (parsesTo structImported) astPrinter (strictOpts ∅)
  = Returns (None, Some (Errorf "cannot generate for fields whose type is imported"))
  /\ run (parsesTo structImported) astPrinter (defaultOpts "A")
     = Returns (None, Some emptyResult).
Proof. split; reflexivity. Qed.

(** ** C6 and C1: what a successful run prints *)




Lemma assignedField_newFunc (sname fnIdent : string) (pt ty : Expr) (name : string) :
  assignedField (newFunc sname fnIdent pt ty name) = Some name.
Proof. reflexivity. Qed.


Lemma setterCount_setters (X sname fnIdent : string) (pt : Expr)
    (chosen : list (Expr * string)) :
  setterCount X (map (fun p => newFunc sname fnIdent pt p.1 p.2) chosen)
  = occurrences X (map snd chosen).
Proof.
  unfold setterCount, occurrences.
  induction chosen as [|p ps IH]; simpl; [reflexivity|].
  destruct (decide (p.2 = X)) as [He|He].
  - rewrite !bool_decide_eq_true_2 by congruence. simpl. now rewrite IH.
  - rewrite !bool_decide_eq_false_2 by congruence. exact IH.
Qed.



(** The setters of the file a successful run prints, counted by the tests
    the two loops of [withFuncs] make: as many setters assign [X] as [X] has
    eligible occurrences, and every function declaration is the setter of
    one. *)
Lemma setters_of_eligible_occurrences {Out : Type}
    (ParseFile : string -> File + string) (Fprint : File -> Out * option string)
    (opts : flagOpts) (out : Out) :
  run ParseFile Fprint opts = Returns (Some out, None) ->
  exists astF sname fields astOut,
    ParseFile (definitionFile opts) = inl astF
    /\ findRequestedStructType astF (structTypeName opts) = Some (sname, StructType fields)
    /\ Fprint astOut = (out, None)
    /\ (forall X,
          setterCount X (Decls astOut)
          = occurrences X (map snd (eligibleFields (generateForUnexportedFields opts)
                                      (skipStructFields opts) fields)))
    /\ (forall d, d ∈ Decls astOut -> isFuncDecl d = true ->
          exists g X, g ∈ fields /\ X ∈ Names g /\ unsupported g = false
                      /\ eligibleName (generateForUnexportedFields opts)
                           (skipStructFields opts) X = true
                      /\ assignedField d = Some X).
Proof.
  intros Hrun.
  apply run_success_inv in Hrun as (astF & sname & fields & Hparse & Hfind & _ & _ & Hp).
  exists astF, sname, fields, (synthesized opts astF sname fields).
  repeat split; auto.
  - intros X. unfold synthesized, settersOf. cbn [Decls fst].
    rewrite <- setterCount_setters with (sname := sname)
      (fnIdent := funcTypeIdent sname (exportFnType opts)) (pt := StarExpr (Ident sname)).
    reflexivity.
  - intros d Hd Hfn. unfold synthesized, settersOf in Hd. cbn [Decls fst] in Hd.
    apply elem_of_cons in Hd as [->|Hd]; [discriminate|].
    apply list_elem_of_In, in_map_iff in Hd as ([ty X] & <- & Hin).
    unfold eligibleFields in Hin. apply in_flat_map in Hin as (g & Hg & Hin).
    destruct (unsupported g) eqn:Hu; [destruct Hin|].
    apply in_map_iff in Hin as (X' & [= <- <-] & HX). apply filter_In in HX as [HX He].
    exists g, X'. repeat split; auto; now apply list_elem_of_In.
Qed.

(** On a name that begins with an ASCII byte the first byte is the first
    character, and the test of the inner loop is the test of the rule. *)
Lemma firstCharacterLowercase_ascii (b : ascii) (rest : string) :
  byteVal b < RuneSelf ->
  firstCharacterLowercase (String b rest) = firstByteLower (String b rest).
Proof.
  intros Hb. apply Z.ltb_lt in Hb.
  unfold firstCharacterLowercase, firstCharacter, firstByteLower. cbn zeta.
  now rewrite Hb.
Qed.

Lemma excluded_ascii (gen : bool) (skip : flagStringSet) (g : Field)
    (b : ascii) (rest : string) :
  byteVal b < RuneSelf ->
  excluded gen skip (g, String b rest)
  = unsupported g || negb (eligibleName gen skip (String b rest)).
Proof.
  intros Hb. unfold excluded, unsupported, eligibleName, unexportedRule. cbn [fst snd].
  rewrite (firstCharacterLowercase_ascii b rest Hb).
  rewrite negb_andb, !negb_involutive. now rewrite !orb_assoc.
Qed.

Lemma excluded_unsupported (gen : bool) (skip : flagStringSet) (g : Field) (n : string) :
  unsupported g = true -> excluded gen skip (g, n) = true.
Proof.
  unfold excluded, unsupported. cbn [fst snd]. intros ->. reflexivity.
Qed.

(** One group: the eligible names equal to an ASCII-initial [X] are the
    occurrences of [X] in the group that no rule excludes. *)
Lemma admitted_in_group (gen : bool) (skip : flagStringSet) (g : Field)
    (b : ascii) (rest : string) (names : list string) :
  byteVal b < RuneSelf ->
  occurrences (String b rest)
    (map snd (if unsupported g then []
              else map (pair (Type_ g)) (List.filter (eligibleName gen skip) names)))
  = length (List.filter
              (fun occ => bool_decide (occ.2 = String b rest)
                          && negb (excluded gen skip occ))
              (map (pair g) names)).
Proof.
  intros Hb. unfold occurrences.
  induction names as [|n names IH]; [now destruct (unsupported g)|].
  cbn [map List.filter snd]. destruct (decide (n = String b rest)) as [->|Hne].
  - rewrite (bool_decide_eq_true_2 (String b rest = String b rest)) by reflexivity.
    rewrite andb_true_l, (excluded_ascii gen skip g b rest Hb).
    destruct (unsupported g) eqn:Hu; [exact IH|]. rewrite orb_false_l, negb_involutive.
    destruct (eligibleName gen skip (String b rest)); [|exact IH].
    cbn [map List.filter snd length].
    rewrite (bool_decide_eq_true_2 (String b rest = String b rest)) by reflexivity.
    cbn [length]. f_equal. exact IH.
  - rewrite (bool_decide_eq_false_2 (n = String b rest)) by assumption.
    rewrite andb_false_l.
    destruct (unsupported g) eqn:Hu; [exact IH|].
    destruct (eligibleName gen skip n); [|exact IH].
    cbn [map List.filter snd]. rewrite (bool_decide_eq_false_2 (n = String b rest)) by assumption.
    exact IH.
Qed.

Lemma admitted_are_eligible (gen : bool) (skip : flagStringSet) (fields : list Field)
    (b : ascii) (rest : string) :
  byteVal b < RuneSelf ->
  occurrences (String b rest) (map snd (eligibleFields gen skip fields))
  = admittedOccurrences gen skip fields (String b rest).
Proof.
  intros Hb. unfold admittedOccurrences, eligibleFields, fieldOccurrences.
  induction fields as [|g fields IH]; [reflexivity|].
  cbn [flat_map]. rewrite List.filter_app, List.length_app, <- IH.
  rewrite <- (admitted_in_group gen skip g b rest (Names g) Hb).
  unfold occurrences. now rewrite map_app, List.filter_app, List.length_app.
Qed.

(** C1, as amended.  In the file a successful run prints, the setters that
    assign a field [X] whose name begins with an ASCII character are as many
    as the occurrences of [X] in the struct that no rule excludes (embedded
    group, imported type, skip-set, first character lowercase with setters
    for unexported fields off): one for a name with one such occurrence, none
    for a name without.  Every function declaration of the file is the
    setter of an occurrence in a group that is neither embedded nor of an
    imported type, of a name that is not in the skip-set and, if it begins
    with an ASCII character, is excluded by no rule. *)
Theorem C1_one_setter_per_eligible_occurrence {Out : Type}
    (ParseFile : string -> File + string) (Fprint : File -> Out * option string)
    (opts : flagOpts) (out : Out) :
  run ParseFile Fprint opts = Returns (Some out, None) ->
  exists astF sname fields astOut,
    ParseFile (definitionFile opts) = inl astF
    /\ findRequestedStructType astF (structTypeName opts) = Some (sname, StructType fields)
    /\ Fprint astOut = (out, None)
    /\ (forall b rest,
          byteVal b < RuneSelf ->
          setterCount (String b rest) (Decls astOut)
          = admittedOccurrences (generateForUnexportedFields opts) (skipStructFields opts)
              fields (String b rest))
    /\ (forall d, d ∈ Decls astOut -> isFuncDecl d = true ->
          exists g X,
            (g, X) ∈ fieldOccurrences fields
            /\ assignedField d = Some X
            /\ embedded g = false
            /\ referencesImportedPackage g = false
            /\ inSkipSet (skipStructFields opts) X = false
            /\ (forall b rest,
                  X = String b rest -> byteVal b < RuneSelf ->
                  excluded (generateForUnexportedFields opts) (skipStructFields opts) (g, X)
                  = false)).
Proof.
  intros Hrun.
  apply setters_of_eligible_occurrences in Hrun
    as (astF & sname & fields & astOut & Hparse & Hfind & Hp & Hcount & Hdecl).
  exists astF, sname, fields, astOut. repeat split; auto.
  - intros b rest Hb. rewrite Hcount. now apply admitted_are_eligible.
  - intros d Hd Hfn.
    destruct (Hdecl d Hd Hfn) as (g & X & Hg & HX & Hu & He & Hassigned).
    exists g, X. unfold unsupported in Hu. apply orb_false_iff in Hu as [Hemb Himp].
    unfold eligibleName in He. apply andb_true_iff in He as [Hskip Hrule].
    apply negb_true_iff in Hskip.
    repeat split; auto.
    + unfold fieldOccurrences. apply list_elem_of_In, in_flat_map. exists g.
      split; [now apply list_elem_of_In|]. apply in_map. now apply list_elem_of_In.
    + intros b rest -> Hb. rewrite (excluded_ascii _ _ g b rest Hb).
      unfold unsupported, eligibleName. now rewrite Hemb, Himp, Hskip, Hrule.
Qed.

Lemma C1_witness :
  exists astOut, setterCount "B" (Decls astOut) = 1%nat /\ setterCount "e" (Decls astOut) = 0%nat.
Proof.
  destruct (C1_one_setter_per_eligible_occurrence (parsesTo readmeA) astPrinter
              (defaultOpts "A")
              (synthesized (defaultOpts "A") readmeA "A"
                 [mkField ["B"] (Ident "string") None;
                  mkField ["C"] (Ident "int") None;
                  mkField ["D"] (Ident "bool") None;
                  mkField ["e"] (Ident "float32") None;
                  mkField ["F"] (InterfaceType []) None]) eq_refl)
    as (astF & sname & fields & astOut & Hparse & Hfind & _ & Hcount & _).
  injection Hparse as <-. injection Hfind as <- <-.
  exists astOut. split.
  - rewrite (Hcount "B"%char EmptyString) by (vm_compute; reflexivity). reflexivity.
  - rewrite (Hcount "e"%char EmptyString) by (vm_compute; reflexivity). reflexivity.
Defined.

(** C1 as stated fails on a struct with two blank fields: the run succeeds,
    the name [_] is in no excluded group, not in the skip-set and does not
    begin with a lower-case letter, and the file printed holds two setters
    that assign [_], not one. *)
Lemma C1_counterexample :
  exists astOut g,
    run (parsesTo blankTwice) astPrinter (defaultOpts "A") = Returns (Some astOut, None)
    /\ findRequestedStructType blankTwice "A"
       = Some ("A", StructType [g; mkField ["_"] (Ident "bool") None])
    /\ "_" ∈ Names g
    /\ embedded g = false /\ referencesImportedPackage g = false
    /\ inSkipSet (skipStructFields (defaultOpts "A")) "_" = false
    /\ unexportedRule (generateForUnexportedFields (defaultOpts "A")) "_" = false
    /\ firstCharacterLowercase "_" = false
    /\ excluded (generateForUnexportedFields (defaultOpts "A"))
         (skipStructFields (defaultOpts "A")) (g, "_") = false
    /\ setterCount "_" (Decls astOut) = 2%nat.
Proof.
  eexists. exists (mkField ["_"] (Ident "int") None).
  split; [reflexivity|]. repeat split. apply list_elem_of_here.
Qed.

(** ** C7: the skip-set *)

Section skip_absent.
Variable structType : string * Expr.
Variable fnIdent : string.
Variable fnParamType : Expr.
Variables gen ign : bool.
Variable skip : flagStringSet.
Variable N : string.

Lemma withFuncs_names_skip_absent (ty : Expr) (names : list string)
    (astOut : File) (n : Z) :
  N ∉ names ->
  withFuncs_names structType fnIdent fnParamType gen ({[N]} ∪ skip) ty names astOut n
  = withFuncs_names structType fnIdent fnParamType gen skip ty names astOut n.
Proof.
  revert astOut n. induction names as [|x names IH]; intros astOut n Hnot; [reflexivity|].
  apply not_elem_of_cons in Hnot as [Hx Hnames]. cbn [withFuncs_names].
  destruct (decide (x ∈ {[N]} ∪ skip)) as [Hin|Hin];
    destruct (decide (x ∈ skip)) as [Hin'|Hin'].
  - now apply IH.
  - apply elem_of_union in Hin as [Hin|Hin]; [|contradiction].
    apply elem_of_singleton in Hin. congruence.
  - exfalso. apply Hin, elem_of_union. now right.
  - destruct x as [|b rest]; [reflexivity|].
    destruct (unicode_IsLower b && negb gen); now apply IH.
Qed.

Lemma withFuncs_fields_skip_absent (fields : list Field) (astOut : File) (n : Z) :
  N ∉ flat_map Names fields ->
  withFuncs_fields structType fnIdent fnParamType gen ign ({[N]} ∪ skip) fields astOut n
  = withFuncs_fields structType fnIdent fnParamType gen ign skip fields astOut n.
Proof.
  revert astOut n. induction fields as [|g fields IH]; intros astOut n Hnot; [reflexivity|].
  cbn [flat_map] in Hnot. apply not_elem_of_app in Hnot as [Hg Hfields].
  cbn [withFuncs_fields].
  destruct (length (Names g) =? 0)%nat; [destruct ign; auto|].
  destruct (fieldContainsImport g); [destruct ign; auto|].
  rewrite withFuncs_names_skip_absent by assumption.
  destruct (withFuncs_names _ _ _ _ skip _ _ _ _) as [[astOut' n']|msg]; simpl; auto.
Qed.
End skip_absent.

(** C7.  A name that is none of the struct's field names can be added to the
    skip-set without any change to what [run] returns: the same output, the
    same error, the same panic. *)
Theorem C7_skipping_an_absent_name {Out : Type}
    (ParseFile : string -> File + string) (Fprint : File -> Out * option string)
    (opts : flagOpts) (N : string) :
  N ∉ structFieldNames ParseFile opts ->
  run ParseFile Fprint (withSkipped opts N) = run ParseFile Fprint opts.
Proof.
  unfold structFieldNames, run. cbn [withSkipped definitionFile structTypeName exportFnType
    generateForUnexportedFields ignoreUnsupported skipStructFields].
  destruct (ParseFile (definitionFile opts)) as [astF|msg]; [|reflexivity].
  destruct (findRequestedStructType astF (structTypeName opts)) as [[sname typ]|] eqn:Hfind;
    [|reflexivity].
  destruct (findRequestedStructType_Some _ _ _ Hfind) as [_ [fields Htyp]].
  simpl in Htyp. subst typ. intros Hnot.
  unfold withFuncs. cbn [fst snd].
  now rewrite withFuncs_fields_skip_absent.
Qed.

Lemma C7_witness :
  run (parsesTo readmeA) astPrinter (withSkipped (defaultOpts "A") "Z")
  = run (parsesTo readmeA) astPrinter (defaultOpts "A").
Proof.
  apply (C7_skipping_an_absent_name (parsesTo readmeA) astPrinter (defaultOpts "A") "Z").
  apply (bool_decide_unpack _). vm_compute. exact I.
Defined.

(** ** C9, C10, C8 and C5: names, first bytes and first characters *)

(** C9.  Setter names need not be distinct: for a struct with the fields
    [foo] and [Foo], setters for unexported fields on and an empty skip-set,
    the run succeeds and prints two function declarations, both named
    [SetFoo]. *)
Theorem C9_setter_names_can_collide :
  exists (astF : File) (opts : flagOpts) (sname : string) (fields : list Field)
         (astOut : File) (t d1 d2 : Decl),
    findRequestedStructType astF (structTypeName opts) = Some (sname, StructType fields)
    /\ flat_map Names fields = ["foo"; "Foo"]
    /\ generateForUnexportedFields opts = true
    /\ skipStructFields opts = ∅
    /\ run (parsesTo astF) astPrinter opts = Returns (Some astOut, None)
    /\ Decls astOut = [t; d1; d2]
    /\ isFuncDecl d1 = true /\ isFuncDecl d2 = true
    /\ assignedField d1 = Some "foo" /\ assignedField d2 = Some "Foo"
    /\ declName d1 = Some "SetFoo" /\ declName d2 = Some "SetFoo".
Proof.
  exists fooAndFoo, (unexportedToo "S"), "S".
  do 5 eexists. repeat split; reflexivity.
Qed.

Lemma unicode_IsLower_latin1 (b : ascii) :
  unicode_IsLower b = true <-> latin1Lower (byteVal b).
Proof.
  unfold unicode_IsLower, latin1Lower. cbn zeta.
  rewrite !orb_true_iff, !andb_true_iff, !Z.leb_le, Z.eqb_eq. tauto.
Qed.

Lemma byteOf_byteVal (b : ascii) : byteOf (byteVal b) = b.
Proof. unfold byteOf, byteVal. now rewrite N2Z.id, ascii_N_embedding. Qed.

(** On a name that begins with an ASCII byte the program's two helpers do
    change the case of the first character. *)
Lemma withFirstCharLower_ascii (b : ascii) (rest : string) :
  byteVal b < RuneSelf ->
  lowerFirstCharacter (String b rest) = Some (withFirstCharLower (String b rest)).
Proof.
  intros Hb. unfold lowerFirstCharacter, firstCharacter, withFirstCharLower, strings_ToLower.
  cbn zeta. apply Z.ltb_lt in Hb as Hb'. rewrite Hb'.
  unfold lowerCase, utf8, RuneSelf in *.
  destruct ((0x41 <=? byteVal b) && (byteVal b <=? 0x5A)) eqn:Hup.
  - apply andb_true_iff in Hup as [H1 H2]. apply Z.leb_le in H1, H2.
    rewrite orb_true_l.
    replace (byteVal b + 32 <? 128) with true by (symmetry; apply Z.ltb_lt; lia).
    reflexivity.
  - rewrite orb_false_l.
    replace ((0xC0 <=? byteVal b) && (byteVal b <=? 0xDE)) with false
      by (symmetry; apply andb_false_iff; left; apply Z.leb_gt; lia).
    simpl andb. cbv iota. rewrite Hb', byteOf_byteVal. reflexivity.
Qed.

Lemma withFirstCharUppper_ascii (b : ascii) (rest : string) :
  byteVal b < RuneSelf ->
  upperFirstCharacter (String b rest) = Some (withFirstCharUppper (String b rest)).
Proof.
  intros Hb. unfold upperFirstCharacter, firstCharacter, withFirstCharUppper, strings_ToUpper.
  cbn zeta. apply Z.ltb_lt in Hb as Hb'. rewrite Hb'.
  unfold upperCase, utf8, RuneSelf in *.
  destruct ((0x61 <=? byteVal b) && (byteVal b <=? 0x7A)) eqn:Hlow.
  - apply andb_true_iff in Hlow as [H1 H2]. apply Z.leb_le in H1, H2.
    rewrite orb_true_l.
    replace (byteVal b - 32 <? 128) with true by (symmetry; apply Z.ltb_lt; lia).
    reflexivity.
  - rewrite orb_false_l.
    replace ((0xE0 <=? byteVal b) && (byteVal b <=? 0xFE)) with false
      by (symmetry; apply andb_false_iff; left; apply Z.leb_gt; lia).
    simpl andb. cbv iota.
    replace (byteVal b =? 0xFF) with false by (symmetry; apply Z.eqb_neq; lia).
    replace (byteVal b =? 0xB5) with false by (symmetry; apply Z.eqb_neq; lia).
    rewrite Hb', byteOf_byteVal. reflexivity.
Qed.

Example lowerFirstCharacter_examples :
  lowerFirstCharacter "Foo" = Some "foo"
  /\ lowerFirstCharacter "É" = Some "é"
  /\ upperFirstCharacter "élan" = Some "Élan"
  /\ upperFirstCharacter "e" = Some "E".
Proof. repeat split; reflexivity. Qed.

Lemma occurrences_none (X : string) (names : list string) :
  X ∉ names -> occurrences X names = 0%nat.
Proof.
  unfold occurrences. induction names as [|n names IH]; intros Hnot; [reflexivity|].
  apply not_elem_of_cons in Hnot as [Hn Hnames]. simpl.
  rewrite bool_decide_eq_false_2 by congruence. auto.
Qed.

Lemma eligibleFields_elem (genUnexported : bool) (skip : flagStringSet)
    (fields : list Field) (ty : Expr) (X : string) :
  (ty, X) ∈ eligibleFields genUnexported skip fields <->
  exists g, g ∈ fields /\ unsupported g = false /\ Type_ g = ty /\ X ∈ Names g
            /\ eligibleName genUnexported skip X = true.
Proof.
  unfold eligibleFields. rewrite list_elem_of_In, in_flat_map. split.
  - intros (g & Hg & Hin). destruct (unsupported g) eqn:Hu; [destruct Hin|].
    apply in_map_iff in Hin as (X' & [= <- <-] & HX). apply filter_In in HX as [HX He].
    exists g. repeat split; auto; now apply list_elem_of_In.
  - intros (g & Hg & Hu & <- & HX & He). exists g. split; [now apply list_elem_of_In|].
    rewrite Hu. apply in_map. apply filter_In. split; [now apply list_elem_of_In|assumption].
Qed.

(** C10, as amended.  The test for an unexported field reads the first byte
    of the name as a code point of Latin-1.  In a successful run, every name
    of a supported group that is not in the skip-set and whose first byte is
    no lower-case letter of Latin-1 (not 'a'..'z', B5, DF..F6, F8..FF) has
    its setter in the file printed, whatever [generateForUnexportedFields]
    is; with that option off, a name whose first byte is such a letter has
    none. *)
Theorem C10_first_byte_as_latin1 {Out : Type}
    (ParseFile : string -> File + string) (Fprint : File -> Out * option string)
    (opts : flagOpts) (out : Out) :
  run ParseFile Fprint opts = Returns (Some out, None) ->
  exists astF sname fields astOut,
    ParseFile (definitionFile opts) = inl astF
    /\ findRequestedStructType astF (structTypeName opts) = Some (sname, StructType fields)
    /\ Fprint astOut = (out, None)
    /\ (forall g b rest,
          g ∈ fields -> unsupported g = false ->
          String b rest ∈ Names g ->
          String b rest ∉ skipStructFields opts ->
          ~ latin1Lower (byteVal b) ->
          newFunc sname (funcTypeIdent sname (exportFnType opts)) (StarExpr (Ident sname))
            (Type_ g) (String b rest) ∈ Decls astOut)
    /\ (forall b rest,
          latin1Lower (byteVal b) ->
          generateForUnexportedFields opts = false ->
          setterCount (String b rest) (Decls astOut) = 0%nat).
Proof.
  intros Hrun.
  apply run_success_inv in Hrun as (astF & sname & fields & Hparse & Hfind & _ & _ & Hp).
  exists astF, sname, fields, (synthesized opts astF sname fields).
  repeat split; auto.
  - intros g b rest Hg Hu Hname Hskip Hlow.
    unfold synthesized, settersOf. cbn [Decls fst]. apply elem_of_cons. right.
    apply list_elem_of_In, in_map_iff. exists (Type_ g, String b rest).
    split; [reflexivity|]. apply list_elem_of_In, eligibleFields_elem.
    exists g. repeat split; auto.
    unfold eligibleName, inSkipSet, unexportedRule, firstByteLower.
    rewrite bool_decide_eq_false_2 by assumption.
    destruct (unicode_IsLower b) eqn:Hl; [|reflexivity].
    apply unicode_IsLower_latin1 in Hl. contradiction.
  - intros b rest Hlow Hgen.
    unfold synthesized, settersOf. cbn [Decls fst].
    change (setterCount (String b rest)
              (map (fun p => newFunc sname (funcTypeIdent sname (exportFnType opts))
                               (StarExpr (Ident sname)) p.1 p.2)
                 (eligibleFields (generateForUnexportedFields opts) (skipStructFields opts)
                    fields)) = 0%nat).
    rewrite setterCount_setters. apply occurrences_none.
    intros Hin. apply list_elem_of_In, in_map_iff in Hin as ([ty X] & HX & Hin).
    simpl in HX. subst X. apply list_elem_of_In, eligibleFields_elem in Hin
      as (g & _ & _ & _ & _ & He).
    unfold eligibleName, unexportedRule, firstByteLower in He.
    apply unicode_IsLower_latin1 in Hlow. rewrite Hlow, Hgen in He.
    now rewrite andb_false_r in He.
Qed.

Lemma C10_witness :
  exists astOut,
    newFunc "A" "AFieldSetter" (StarExpr (Ident "A")) (Ident "int") "_x" ∈ Decls astOut
    /\ newFunc "A" "AFieldSetter" (StarExpr (Ident "A")) (Ident "int") "élan" ∈ Decls astOut
    /\ setterCount "e" (Decls astOut) = 0%nat.
Proof.
  destruct (C10_first_byte_as_latin1 (parsesTo underscoreAndAccent) astPrinter
              (defaultOpts "A")
              (synthesized (defaultOpts "A") underscoreAndAccent "A"
                 [mkField ["_x"; "élan"] (Ident "int") None;
                  mkField ["e"] (Ident "int") None]) eq_refl)
    as (astF & sname & fields & astOut & Hparse & Hfind & _ & Hgen & Hnone).
  injection Hparse as <-. injection Hfind as <- <-.
  exists astOut. split; [|split].
  - apply (Hgen (mkField ["_x"; "élan"] (Ident "int") None) "_"%char "x").
    + apply list_elem_of_here.
    + reflexivity.
    + apply list_elem_of_here.
    + apply not_elem_of_empty.
    + unfold latin1Lower. change (byteVal "_"%char) with 95. lia.
  - apply (Hgen (mkField ["_x"; "élan"] (Ident "int") None) (byteOf 0xC3)
             (String (byteOf 0xA9) "lan")).
    + apply list_elem_of_here.
    + reflexivity.
    + apply list_elem_of_further, list_elem_of_here.
    + apply not_elem_of_empty.
    + unfold latin1Lower. change (byteVal (byteOf 0xC3)) with 195. lia.
  - apply (Hnone "e"%char EmptyString); [|reflexivity].
    unfold latin1Lower. change (byteVal "e"%char) with 101. lia.
Defined.

(** C10 as stated fails on a field named U+1EA1: its first byte, E1, is no
    ASCII lower-case letter, the group is supported and the skip-set empty,
    and yet with [generateForUnexportedFields] off the run prints the setter
    of [B] alone.  Read as a code point, E1 is a lower-case letter of
    Latin-1. *)
Lemma C10_counterexample :
  exists astOut g b rest,
    run (parsesTo dotBelow) astPrinter (defaultOpts "A") = Returns (Some astOut, None)
    /\ findRequestedStructType dotBelow "A"
       = Some ("A", StructType [g; mkField ["B"] (Ident "int") None])
    /\ Names g = [String b rest]
    /\ byteVal b = 0xE1
    /\ ~ (0x61 <= byteVal b <= 0x7A)
    /\ unsupported g = false
    /\ inSkipSet (skipStructFields (defaultOpts "A")) (String b rest) = false
    /\ generateForUnexportedFields (defaultOpts "A") = false
    /\ setterCount (String b rest) (Decls astOut) = 0%nat
    /\ omap assignedField (Decls astOut) = ["B"].
Proof.
  eexists. exists (mkField ["ạ"] (Ident "int") None). do 2 eexists.
  split; [reflexivity|]. split; [reflexivity|]. split; [reflexivity|].
  split; [reflexivity|]. split; [|repeat split].
  change (byteVal _) with 225. lia.
Qed.

(** The parameters and the assignment of every setter in the file a
    successful run prints, as [withFuncs] and [getInnerFn] name them. *)
Lemma setter_shapes {Out : Type}
    (ParseFile : string -> File + string) (Fprint : File -> Out * option string)
    (opts : flagOpts) (out : Out) :
  run ParseFile Fprint opts = Returns (Some out, None) ->
  exists astF sname fields astOut,
    ParseFile (definitionFile opts) = inl astF
    /\ findRequestedStructType astF (structTypeName opts) = Some (sname, StructType fields)
    /\ Fprint astOut = (out, None)
    /\ forall d X,
         d ∈ Decls astOut -> assignedField d = Some X ->
         let outer := withFirstCharLower X +:+ "Gen" in
         let inner := withFirstCharLower sname +:+ "Gen" in
         shapeOf d = Some (mkShape outer inner (SelectorExpr (Ident inner) X) (Ident outer)).
Proof.
  intros Hrun.
  apply run_success_inv in Hrun as (astF & sname & fields & Hparse & Hfind & _ & _ & Hp).
  exists astF, sname, fields, (synthesized opts astF sname fields).
  repeat split; auto.
  intros d X Hd Hassigned. unfold synthesized, settersOf in Hd. cbn [Decls fst] in Hd.
  apply elem_of_cons in Hd as [->|Hd]; [discriminate|].
  apply list_elem_of_In, in_map_iff in Hd as ([ty X'] & <- & _).
  cbn [fst snd] in *. rewrite assignedField_newFunc in Hassigned.
  injection Hassigned as ->. reflexivity.
Qed.

(** C8, as amended.  When the name of a generated field and the name of the
    struct begin with an ASCII character and are the same once that character
    is lower-cased (struct [A] with field [A], [Foo] with [foo]), the setter's
    parameter and the parameter of the closure have the same name, the
    lower-cased name followed by [Gen]: the closure's parameter hides the
    setter's, and the right-hand side of the assignment is the identifier the
    left-hand side selects from. *)
Theorem C8_parameter_names_coincide {Out : Type}
    (ParseFile : string -> File + string) (Fprint : File -> Out * option string)
    (opts : flagOpts) (out : Out) :
  run ParseFile Fprint opts = Returns (Some out, None) ->
  exists astF sname fields astOut,
    ParseFile (definitionFile opts) = inl astF
    /\ findRequestedStructType astF (structTypeName opts) = Some (sname, StructType fields)
    /\ Fprint astOut = (out, None)
    /\ forall d b rest c rest' lowered,
         d ∈ Decls astOut -> assignedField d = Some (String b rest) ->
         sname = String c rest' ->
         byteVal b < RuneSelf -> byteVal c < RuneSelf ->
         lowerFirstCharacter (String b rest) = Some lowered ->
         lowerFirstCharacter sname = Some lowered ->
         let p := lowered +:+ "Gen" in
         shapeOf d = Some (mkShape p p (SelectorExpr (Ident p) (String b rest)) (Ident p)).
Proof.
  intros Hrun.
  apply setter_shapes in Hrun
    as (astF & sname & fields & astOut & Hparse & Hfind & Hp & Hshape).
  exists astF, sname, fields, astOut. repeat split; auto.
  intros d b rest c rest' lowered Hd Hassigned -> Hb Hc Hfield Hstruct.
  rewrite withFirstCharLower_ascii in Hfield, Hstruct by assumption.
  assert (Hf : withFirstCharLower (String b rest) = lowered) by congruence.
  assert (Hs : withFirstCharLower (String c rest') = lowered) by congruence.
  cbn zeta. rewrite (Hshape d _ Hd Hassigned). cbn zeta. now rewrite Hf, Hs.
Qed.

Lemma C8_witness :
  exists astOut d,
    Decls astOut = [typeDef "AFieldSetter" (StarExpr (Ident "A")); d]
    /\ shapeOf d
       = Some (mkShape "aGen" "aGen" (SelectorExpr (Ident "aGen") "A") (Ident "aGen")).
Proof.
  destruct (C8_parameter_names_coincide (parsesTo structAA) astPrinter (defaultOpts "A")
              (synthesized (defaultOpts "A") structAA "A" [mkField ["A"] (Ident "int") None])
              eq_refl)
    as (astF & sname & fields & astOut & Hparse & Hfind & Hp & Hshape).
  injection Hparse as <-. injection Hfind as <- <-.
  unfold astPrinter in Hp. injection Hp as ->.
  exists (synthesized (defaultOpts "A") structAA "A" [mkField ["A"] (Ident "int") None]).
  eexists. split; [reflexivity|].
  apply (Hshape _ "A"%char EmptyString "A"%char EmptyString "a").
  - apply list_elem_of_further, list_elem_of_here.
  - reflexivity.
  - reflexivity.
  - change (byteVal "A"%char) with 65. unfold RuneSelf. lia.
  - change (byteVal "A"%char) with 65. unfold RuneSelf. lia.
  - reflexivity.
  - reflexivity.
Defined.

(** C8 as stated fails on the struct [É] with the field [é]: the two names
    are the same once their first character is lower-cased, the field gets its
    setter, and the two parameters have different names (the second bytes of
    the two letters tell them apart), so that the assignment takes the
    setter's parameter. *)
Lemma C8_counterexample :
  exists astOut t d s,
    lowerFirstCharacter "é" = Some "é"
    /\ lowerFirstCharacter "É" = Some "é"
    /\ run (parsesTo accentStruct) astPrinter (defaultOpts "É") = Returns (Some astOut, None)
    /\ Decls astOut = [t; d]
    /\ assignedField d = Some "é"
    /\ shapeOf d = Some s
    /\ outerParam s <> innerParam s
    /\ assignRhs s = Ident (outerParam s).
Proof.
  do 4 eexists. split; [reflexivity|]. split; [reflexivity|]. split; [reflexivity|].
  split; [reflexivity|]. split; [reflexivity|]. split; [reflexivity|].
  split; [|reflexivity]. vm_compute. discriminate.
Qed.

(** C5 at a field whose first character is not ASCII.  For the field [élan]
    the setter should be [SetÉlan].  The program upper-cases the first byte,
    C3, by itself: [strings.ToUpper] answers U+FFFD for it, the second byte of
    the letter stays behind, and the setter's name is no valid UTF-8.  The
    function type of a struct named [élan] gets its name the same way. *)
Theorem C5_first_byte_for_first_character :
  exists astOut t d,
    upperFirstCharacter "élan" = Some "Élan"
    /\ run (parsesTo elan) astPrinter (defaultOpts "A") = Returns (Some astOut, None)
    /\ Decls astOut = [t; d]
    /\ assignedField d = Some "élan"
    /\ declName d = Some ("Set" +:+ RuneError +:+ String (byteOf 0xA9) "lan")
    /\ declName d <> Some "SetÉlan"
    /\ funcTypeIdent "élan" true = RuneError +:+ String (byteOf 0xA9) "lanFieldSetter"
    /\ funcTypeIdent "élan" true <> "ÉlanFieldSetter".
Proof.
  do 3 eexists. split; [reflexivity|]. split; [reflexivity|]. split; [reflexivity|].
  split; [reflexivity|]. split; [reflexivity|].
  split; [vm_compute; discriminate|]. split; [reflexivity|]. vm_compute. discriminate.
Qed.

(** Where the first byte is the first character, the names are as C5 says:
    the setter is [Set] and the field name with its first character
    upper-cased, exported field or not, and the case of the function type's
    name follows [exportFnType] alone. *)
Lemma names_of_ascii_identifiers (b c : ascii) (rest rest' : string) (sname fnIdent : string)
    (pt ty : Expr) (export : bool) :
  byteVal b < RuneSelf -> byteVal c < RuneSelf ->
  (option_map (String.append "Set") (upperFirstCharacter (String b rest))
   = declName (newFunc sname fnIdent pt ty (String b rest)))
  /\ (option_map (fun s => s +:+ "FieldSetter")
        ((if export then upperFirstCharacter else lowerFirstCharacter) (String c rest'))
      = Some (funcTypeIdent (String c rest') export)).
Proof.
  intros Hb Hc. split.
  - now rewrite withFirstCharUppper_ascii.
  - unfold funcTypeIdent. destruct export.
    + now rewrite withFirstCharUppper_ascii.
    + now rewrite withFirstCharLower_ascii.
Qed.


(** * Further properties of the code *)

(** ** What [run] returns *)

(** Every stage of [run], by the struct's groups. *)
Lemma run_cases {Out : Type} (ParseFile : string -> File + string)
    (Fprint : File -> Out * option string) (opts : flagOpts) :
  (exists msg, ParseFile (definitionFile opts) = inr msg
               /\ run ParseFile Fprint opts = Returns (None, Some (ParseError msg)))
  \/ (exists astF, ParseFile (definitionFile opts) = inl astF
                   /\ findRequestedStructType astF (structTypeName opts) = None
                   /\ run ParseFile Fprint opts = Returns (None, Some typeNotFound))
  \/ (exists astF sname fields,
        ParseFile (definitionFile opts) = inl astF
        /\ findRequestedStructType astF (structTypeName opts)
           = Some (sname, StructType fields)
        /\ run ParseFile Fprint opts =
             match List.find (stops (ignoreUnsupported opts) (skipStructFields opts)) fields
             with
             | Some g =>
                 if unsupported g then Returns (None, Some (unsupportedError g))
                 else Panics indexPanic
             | None =>
                 match eligibleFields (generateForUnexportedFields opts)
                         (skipStructFields opts) fields with
                 | [] => Returns (None, Some emptyResult)
                 | _ :: _ => printed Fprint (synthesized opts astF sname fields)
                 end
             end).
Proof.
  destruct (ParseFile (definitionFile opts)) as [astF|msg] eqn:Hparse.
  - destruct (findRequestedStructType astF (structTypeName opts)) as [[sname typ]|] eqn:Hfind.
    + right. right.
      destruct (findRequestedStructType_Some _ _ _ Hfind) as [_ [fields Htyp]].
      simpl in Htyp. subst typ. exists astF, sname, fields.
      split; [first [reflexivity|assumption]|]. split; [first [reflexivity|assumption]|]. now apply run_eq.
    + right. left. exists astF. split; [first [reflexivity|assumption]|]. split; [first [reflexivity|assumption]|].
      unfold run. now rewrite Hparse, Hfind.
  - left. exists msg. split; [first [reflexivity|assumption]|]. unfold run. now rewrite Hparse.
Qed.

Lemma printed_cases {Out : Type} (Fprint : File -> Out * option string) (astOut : File) :
  (exists out, Fprint astOut = (out, None)
               /\ printed Fprint astOut = Returns (Some out, None))
  \/ (exists out msg, Fprint astOut = (out, Some msg)
                      /\ printed Fprint astOut = Returns (None, Some (PrintError msg))).
Proof.
  unfold printed. destruct (Fprint astOut) as [out [msg|]]; [right|left]; eauto.
Qed.

(** X1.  [run] hands back a reader or an error, never both and never
    neither: whatever the parser and the printer do, a returning call gives
    output with a nil error, or an error with a nil reader. *)
Theorem run_returns_output_or_error {Out : Type} (ParseFile : string -> File + string)
    (Fprint : File -> Out * option string) (opts : flagOpts) :
  match run ParseFile Fprint opts with
  | Returns (Some _, None) | Returns (None, Some _) | Panics _ => True
  | Returns (Some _, Some _) | Returns (None, None) => False
  end.
Proof.
  destruct (run_cases ParseFile Fprint opts)
    as [(msg & _ & ->)|[(astF & _ & _ & ->)|(astF & sname & fields & _ & _ & ->)]];
    try exact I.
  destruct (List.find _ fields) as [g|].
  - now destruct (unsupported g).
  - destruct (eligibleFields _ _ fields); [exact I|].
    destruct (printed_cases Fprint (synthesized opts astF sname fields))
      as [(out & _ & ->)|(out & msg & _ & ->)]; exact I.
Qed.

(** X2.  The errors [run] can return are six, and each tells what happened:
    the parser's error for a file that does not parse, type-not-found when no
    struct of that name is declared, one of the two unsupported-field errors
    for a rejected group (only with [ignoreUnsupported] off), the empty-result
    error when no field is eligible, and the printer's error. *)
Theorem run_errors_are_classified {Out : Type} (ParseFile : string -> File + string)
    (Fprint : File -> Out * option string) (opts : flagOpts)
    (o : option Out) (e : error) :
  run ParseFile Fprint opts = Returns (o, Some e) ->
  runError ParseFile Fprint opts e.
Proof.
  destruct (run_cases ParseFile Fprint opts)
    as [(msg & Hp & ->)|[(astF & Hp & Hf & ->)|(astF & sname & fields & Hp & Hf & ->)]].
  - intros [= _ <-]. now constructor.
  - intros [= _ <-]. now apply no_such_struct with astF.
  - destruct (List.find _ fields) as [g|] eqn:Hstop.
    + apply find_some in Hstop as [Hin Hg]. unfold stops in Hg.
      destruct (unsupported g) eqn:Hu; [|discriminate].
      intros [= _ <-]. apply negb_true_iff in Hg.
      apply group_rejected with astF sname fields; auto. now apply list_elem_of_In.
    + destruct (eligibleFields _ _ fields) as [|p ps] eqn:He.
      * intros [= _ <-]. now apply nothing_generated with astF sname fields.
      * destruct (printed_cases Fprint (synthesized opts astF sname fields))
          as [(out & _ & ->)|(out & msg & Hpr & ->)]; [discriminate|].
        intros [= _ <-]. now apply print_failed with astF sname fields out.
Qed.

Lemma run_errors_are_classified_witness :
  runError (parsesTo structImported) astPrinter (strictOpts ∅)
    (Errorf "cannot generate for fields whose type is imported").
Proof.
  exact (run_errors_are_classified (parsesTo structImported) astPrinter (strictOpts ∅)
           None _ eq_refl).
Defined.

Lemma namesPanic_empty_name (skip : flagStringSet) (names : list string) :
  namesPanic skip names = true -> EmptyString ∈ names /\ EmptyString ∉ skip.
Proof.
  unfold namesPanic. rewrite existsb_exists. intros (n & Hn & H).
  apply andb_true_iff in H as [Hs He]. apply bool_decide_eq_true in He. subst n.
  split; [now apply list_elem_of_In|].
  unfold inSkipSet in Hs. apply negb_true_iff, bool_decide_eq_false in Hs. exact Hs.
Qed.

(** X3.  [run] panics in one way only: [withFuncs] indexes the first byte of
    a field name that is empty and not in the skip-set.  The other panic of
    [withFuncs], for a type that is no struct, cannot be reached from [run];
    and on a struct whose field names all have a first byte, as go/parser
    gives them, [run] returns. *)
Theorem run_panics_only_on_an_empty_name {Out : Type}
    (ParseFile : string -> File + string) (Fprint : File -> Out * option string)
    (opts : flagOpts) (msg : string) :
  run ParseFile Fprint opts = Panics msg ->
  msg = indexPanic
  /\ EmptyString ∈ structFieldNames ParseFile opts
  /\ EmptyString ∉ skipStructFields opts.
Proof.
  unfold structFieldNames.
  destruct (run_cases ParseFile Fprint opts)
    as [(m & Hp & ->)|[(astF & Hp & Hf & ->)|(astF & sname & fields & Hp & Hf & ->)]];
    try discriminate.
  rewrite Hp, Hf.
  destruct (List.find _ fields) as [g|] eqn:Hstop.
  - apply find_some in Hstop as [Hin Hg]. unfold stops in Hg.
    destruct (unsupported g); [discriminate|].
    intros [= <-]. apply namesPanic_empty_name in Hg as [Hnames Hskip].
    repeat split; auto.
    apply list_elem_of_In, in_flat_map. exists g. split; [assumption|].
    now apply list_elem_of_In.
  - destruct (eligibleFields _ _ fields); [discriminate|].
    destruct (printed_cases Fprint (synthesized opts astF sname fields))
      as [(out & _ & ->)|(out & m & _ & ->)]; discriminate.
Qed.

Lemma run_panics_only_on_an_empty_name_witness :
  EmptyString ∈ structFieldNames
    (parsesTo (structFile "A" [mkField [EmptyString] (Ident "int") None])) (defaultOpts "A").
Proof.
  exact (proj1 (proj2 (run_panics_only_on_an_empty_name
           (parsesTo (structFile "A" [mkField [EmptyString] (Ident "int") None]))
           astPrinter (defaultOpts "A") indexPanic eq_refl))).
Defined.

Lemma no_panic_no_stop (ign : bool) (skip : flagStringSet) (fields : list Field) :
  EmptyString ∉ flat_map Names fields ->
  (ign = true \/ Forall (fun g => unsupported g = false) fields) ->
  Forall (fun g => stops ign skip g = false) fields.
Proof.
  intros Hne Hsup. apply Forall_forall. intros g Hg. unfold stops.
  destruct (unsupported g) eqn:Hu.
  - destruct Hsup as [->|Hall]; [reflexivity|].
    rewrite Forall_forall in Hall. rewrite (Hall g Hg) in Hu. discriminate.
  - destruct (namesPanic skip (Names g)) eqn:Hp; [|reflexivity].
    apply namesPanic_empty_name in Hp as [Hin _]. exfalso. apply Hne.
    apply list_elem_of_In, in_flat_map. exists g.
    split; now apply list_elem_of_In.
Qed.

(** X4.  One eligible field is enough.  For a parsed struct (no empty field
    name) with [ignoreUnsupported] on, or with no unsupported group, that has
    a name in a supported group which is neither in the skip-set nor held
    back as unexported, [run] gets as far as the printer: it returns what the
    printer wrote, or the printer's error. *)
Theorem run_reaches_the_printer {Out : Type}
    (ParseFile : string -> File + string) (Fprint : File -> Out * option string)
    (opts : flagOpts) (astF : File) (sname : string) (fields : list Field)
    (g : Field) (name : string) :
  ParseFile (definitionFile opts) = inl astF ->
  findRequestedStructType astF (structTypeName opts) = Some (sname, StructType fields) ->
  EmptyString ∉ flat_map Names fields ->
  (ignoreUnsupported opts = true \/ Forall (fun g => unsupported g = false) fields) ->
  g ∈ fields -> unsupported g = false -> name ∈ Names g ->
  eligibleName (generateForUnexportedFields opts) (skipStructFields opts) name = true ->
  match Fprint (synthesized opts astF sname fields) with
  | (out, None) => run ParseFile Fprint opts = Returns (Some out, None)
  | (_, Some msg) => run ParseFile Fprint opts = Returns (None, Some (PrintError msg))
  end.
Proof.
  intros Hparse Hfind Hne Hsup Hg Hu Hname He.
  rewrite (run_eq ParseFile Fprint opts astF sname fields Hparse Hfind).
  pose proof (no_panic_no_stop _ (skipStructFields opts) _ Hne Hsup) as Hstop.
  apply find_none_iff in Hstop. rewrite Hstop.
  assert (Hin : (Type_ g, name)
                ∈ eligibleFields (generateForUnexportedFields opts) (skipStructFields opts)
                    fields)
    by (apply eligibleFields_elem; exists g; auto).
  destruct (eligibleFields _ _ fields) as [|p ps]; [now apply not_elem_of_nil in Hin|].
  unfold printed. now destruct (Fprint (synthesized opts astF sname fields)) as [out [msg|]].
Qed.

Lemma run_reaches_the_printer_witness :
  run (parsesTo readmeA) astPrinter (defaultOpts "A")
  = Returns (Some (synthesized (defaultOpts "A") readmeA "A"
                     [mkField ["B"] (Ident "string") None;
                      mkField ["C"] (Ident "int") None;
                      mkField ["D"] (Ident "bool") None;
                      mkField ["e"] (Ident "float32") None;
                      mkField ["F"] (InterfaceType []) None]), None).
Proof.
  apply (run_reaches_the_printer (parsesTo readmeA) astPrinter (defaultOpts "A") readmeA "A"
           _ (mkField ["B"] (Ident "string") None) "B" eq_refl eq_refl).
  - apply (bool_decide_unpack _). vm_compute. exact I.
  - now left.
  - apply list_elem_of_here.
  - reflexivity.
  - apply list_elem_of_here.
  - reflexivity.
Defined.

(** ** What [withFuncs] does to [astOut] *)

Section withFuncs_result.
Variable sname fnIdent : string.
Variable fnParamType : Expr.
Variables gen ign : bool.
Variable skip : flagStringSet.
Variable fields : list Field.
Variable astOut : File.

Let call := withFuncs (sname, StructType fields) fnIdent fnParamType gen ign skip astOut.
Let setters := settersOf sname fnIdent fnParamType gen skip.

Lemma withFuncs_completes :
  Forall (fun g => stops ign skip g = false) fields ->
  call = Returns (appendDecls astOut (setters fields),
                  match setters fields with [] => Some emptyResult | _ :: _ => None end).
Proof.
  intros Hall. subst call setters. unfold withFuncs. cbn [snd].
  rewrite withFuncs_fields_all by assumption. cbn [fst mbind outcome_bind].
  destruct (settersOf sname fnIdent fnParamType gen skip fields) as [|d ds]; [reflexivity|].
  cbn [length]. rewrite Z.add_0_l.
  destruct (Z.of_nat (S (length ds)) =? 0) eqn:E; [apply Z.eqb_eq in E; lia|reflexivity].
Qed.

Lemma withFuncs_stops (pre post : list Field) (g : Field) :
  fields = pre ++ g :: post ->
  Forall (fun g' => stops ign skip g' = false) pre ->
  stops ign skip g = true ->
  call = if unsupported g
         then Returns (appendDecls astOut (setters pre), Some (unsupportedError g))
         else Panics indexPanic.
Proof.
  intros Hfields Hpre Hg. subst call setters. unfold withFuncs. cbn [snd].
  rewrite Hfields, withFuncs_fields_app by assumption. cbn [fst].
  unfold stops in Hg. destruct (unsupported g) eqn:Hu.
  - apply negb_true_iff in Hg. now rewrite withFuncs_fields_reject.
  - now rewrite withFuncs_fields_panic.
Qed.

(** The two ways in which a call of [withFuncs] returns. *)
Lemma withFuncs_returns (astOut' : File) (err : option error) :
  call = Returns (astOut', err) ->
  (Forall (fun g => stops ign skip g = false) fields
   /\ astOut' = appendDecls astOut (setters fields)
   /\ err = match setters fields with [] => Some emptyResult | _ :: _ => None end)
  \/ (exists pre g post,
        fields = pre ++ g :: post
        /\ Forall (fun g' => stops ign skip g' = false) pre
        /\ unsupported g = true /\ ign = false
        /\ astOut' = appendDecls astOut (setters pre)
        /\ err = Some (unsupportedError g)).
Proof.
  intros Hcall.
  destruct (List.find (stops ign skip) fields) as [g|] eqn:Hstop.
  - apply find_split in Hstop as (pre & post & Hfields & Hg & Hpre).
    rewrite (withFuncs_stops pre post g Hfields Hpre Hg) in Hcall.
    unfold stops in Hg. destruct (unsupported g) eqn:Hu; [|discriminate].
    injection Hcall as <- <-. right. exists pre, g, post.
    apply negb_true_iff in Hg. auto 10.
  - apply find_none_iff in Hstop. rewrite (withFuncs_completes Hstop) in Hcall.
    injection Hcall as <- <-. left. auto.
Qed.
End withFuncs_result.

Lemma settersOf_are_FuncDecls (sname fnIdent : string) (pt : Expr) (gen : bool)
    (skip : flagStringSet) (fields : list Field) :
  Forall (fun d => isFuncDecl d = true) (settersOf sname fnIdent pt gen skip fields).
Proof. unfold settersOf. apply Forall_forall. intros d Hd.
  apply list_elem_of_In, in_map_iff in Hd as (p & <- & _). reflexivity.
Qed.

(** X5.  [withFuncs] only appends.  Whenever it returns, the declarations
    [astOut] held before are still there, in place and first, the package
    name is the same, and what follows them are function declarations.  It
    returns no error only if it appended at least one, and with the
    empty-result error it appended none. *)
Theorem withFuncs_only_appends (structType : string * Expr) (fnIdent : string)
    (fnParamType : Expr) (gen ign : bool) (skip : flagStringSet)
    (astOut astOut' : File) (err : option error) :
  withFuncs structType fnIdent fnParamType gen ign skip astOut = Returns (astOut', err) ->
  Name astOut' = Name astOut
  /\ exists added,
       Decls astOut' = Decls astOut ++ added
       /\ Forall (fun d => isFuncDecl d = true) added
       /\ (err = None -> added <> [])
       /\ (err = Some emptyResult -> added = []).
Proof.
  destruct structType as [sname typ].
  destruct typ; try (unfold withFuncs; cbn [snd]; discriminate).
  intros Hcall. apply withFuncs_returns in Hcall
    as [(_ & -> & ->)|(pre & g & post & _ & _ & _ & _ & -> & ->)].
  - split; [reflexivity|]. eexists. split; [reflexivity|].
    split; [apply settersOf_are_FuncDecls|].
    destruct (settersOf _ _ _ _ _ _); split; congruence.
  - split; [reflexivity|]. eexists. split; [reflexivity|].
    split; [apply settersOf_are_FuncDecls|].
    split; [discriminate|]. unfold unsupportedError, emptyResult.
    destruct (embedded g); discriminate.
Qed.

Lemma withFuncs_only_appends_witness :
  exists added,
    Decls (synthesized (defaultOpts "A") structAA "A" [mkField ["A"] (Ident "int") None])
    = [typeDef "AFieldSetter" (StarExpr (Ident "A"))] ++ added
    /\ added <> [].
Proof.
  assert (Hcall :
    withFuncs ("A", StructType [mkField ["A"] (Ident "int") None])
      "AFieldSetter" (StarExpr (Ident "A")) false true ∅
      (mkFile "genbuildertest" [typeDef "AFieldSetter" (StarExpr (Ident "A"))])
    = Returns (synthesized (defaultOpts "A") structAA "A" [mkField ["A"] (Ident "int") None],
               None)) by (vm_compute; reflexivity).
  destruct (withFuncs_only_appends _ _ _ _ _ _ _ _ _ Hcall)
    as (_ & added & Hdecls & _ & Hsome & _).
  exists added. split; [exact Hdecls|]. now apply Hsome.
Defined.

(** ** How the options change what [withFuncs] appends *)

Lemma filter_filter_and {A : Type} (p q : A -> bool) (l : list A) :
  List.filter q (List.filter p l) = List.filter (fun x => p x && q x) l.
Proof.
  induction l as [|a l IH]; simpl; [reflexivity|].
  destruct (p a); simpl; [destruct (q a); now rewrite IH|exact IH].
Qed.

Lemma filter_setters (keep : string -> bool) (sname fnIdent : string) (pt : Expr)
    (chosen : list (Expr * string)) :
  List.filter (keepsDecl keep) (map (fun p => newFunc sname fnIdent pt p.1 p.2) chosen)
  = map (fun p => newFunc sname fnIdent pt p.1 p.2)
      (List.filter (fun p => keep p.2) chosen).
Proof.
  induction chosen as [|p ps IH]; simpl; [reflexivity|].
  unfold keepsDecl at 1. rewrite assignedField_newFunc.
  destruct (keep p.2); simpl; now rewrite IH.
Qed.

Lemma filter_map_pair {A B : Type} (a : A) (q : B -> bool) (l : list B) :
  List.filter (fun p : A * B => q p.2) (map (pair a) l) = map (pair a) (List.filter q l).
Proof.
  induction l as [|b l IH]; simpl; [reflexivity|]. destruct (q b); simpl; now rewrite IH.
Qed.

Lemma filter_flat_map {A B : Type} (f : A -> list B) (q : B -> bool) (l : list A) :
  List.filter q (flat_map f l) = flat_map (fun a => List.filter q (f a)) l.
Proof.
  induction l as [|a l IH]; simpl; [reflexivity|]. now rewrite List.filter_app, IH.
Qed.

(** Options whose eligible names are those of other options that pass a
    further test give the setters of those other options that pass it. *)
Lemma settersOf_restricted (keep : string -> bool) (sname fnIdent : string) (pt : Expr)
    (gen gen' : bool) (skip skip' : flagStringSet) (fields : list Field) :
  (forall name, eligibleName gen' skip' name = eligibleName gen skip name && keep name) ->
  settersOf sname fnIdent pt gen' skip' fields
  = List.filter (keepsDecl keep) (settersOf sname fnIdent pt gen skip fields).
Proof.
  intros Hkeep. unfold settersOf. rewrite filter_setters. f_equal.
  unfold eligibleFields. rewrite filter_flat_map. apply flat_map_ext. intros g.
  destruct (unsupported g); [reflexivity|].
  rewrite filter_map_pair, filter_filter_and. f_equal.
  apply List.filter_ext. exact Hkeep.
Qed.

Lemma namesPanic_restricted (skip skip' : flagStringSet) (names : list string) :
  skip ⊆ skip' -> namesPanic skip names = false -> namesPanic skip' names = false.
Proof.
  intros Hsub. unfold namesPanic. induction names as [|n names IH]; simpl; [easy|].
  intros H. apply orb_false_iff in H as [Hn Hrest]. rewrite (IH Hrest), orb_false_r.
  apply andb_false_iff in Hn as [Hn|Hn]; [|now rewrite Hn, andb_false_r].
  apply negb_false_iff in Hn. unfold inSkipSet in *. apply bool_decide_eq_true in Hn.
  rewrite bool_decide_eq_true_2 by (apply Hsub, Hn). reflexivity.
Qed.

Lemma stops_restricted (ign : bool) (skip skip' : flagStringSet) (g : Field) :
  skip ⊆ skip' -> stops ign skip g = false -> stops ign skip' g = false.
Proof.
  unfold stops. intros Hsub. destruct (unsupported g); [easy|].
  now apply namesPanic_restricted.
Qed.

(** What changes when the eligible names are cut down by a test [keep],
    under options with at least the skip-set of before: the setters of the
    names that fail the test go, the others stay as they are and in their
    order, and the only new error is the empty-result one. *)
Lemma withFuncs_restricted (keep : string -> bool) (sname fnIdent : string)
    (pt : Expr) (gen gen' ign : bool) (skip skip' : flagStringSet) (fields : list Field)
    (astOut astOut1 : File) (err1 : option error) :
  skip ⊆ skip' ->
  (forall name, eligibleName gen' skip' name = eligibleName gen skip name && keep name) ->
  withFuncs (sname, StructType fields) fnIdent pt gen ign skip astOut
    = Returns (astOut1, err1) ->
  exists added err2,
    Decls astOut1 = Decls astOut ++ added
    /\ withFuncs (sname, StructType fields) fnIdent pt gen' ign skip' astOut
       = Returns (appendDecls astOut (List.filter (keepsDecl keep) added), err2)
    /\ err2 = match err1 with
              | Some e => Some e
              | None =>
                  match List.filter (keepsDecl keep) added with
                  | [] => Some emptyResult
                  | _ :: _ => None
                  end
              end.
Proof.
  intros Hsub Hkeep Hcall.
  apply withFuncs_returns in Hcall
    as [(Hall & -> & ->)|(pre & g & post & Hfields & Hpre & Hu & Hign & -> & ->)].
  - exists (settersOf sname fnIdent pt gen skip fields). eexists.
    split; [reflexivity|].
    rewrite withFuncs_completes
      by (eapply Forall_impl; [exact Hall|]; intros g; now apply stops_restricted).
    rewrite (settersOf_restricted keep sname fnIdent pt gen gen' skip skip' fields Hkeep).
    split; [reflexivity|].
    now destruct (settersOf sname fnIdent pt gen skip fields) as [|d ds].
  - exists (settersOf sname fnIdent pt gen skip pre), (Some (unsupportedError g)).
    split; [reflexivity|].
    rewrite (withFuncs_stops sname fnIdent pt gen' ign skip' fields astOut pre post g Hfields).
    + rewrite Hu.
      rewrite (settersOf_restricted keep sname fnIdent pt gen gen' skip skip' pre Hkeep).
      auto.
    + eapply Forall_impl; [exact Hpre|]. intros g'. now apply stops_restricted.
    + unfold stops. now rewrite Hu, Hign.
Qed.

(** X6.  A name added to the skip-set takes away its own setters and nothing
    else.  If [withFuncs] returns with some skip-set, then with [X] added to
    that set it returns too and appends the same declarations without those
    that assign [X], in the same order.  An error of the first call is the
    error of the second; after a first call without error the second returns
    the empty-result error if no declaration is left, and no error if one
    is. *)
Theorem skipping_removes_only_that_field (X sname fnIdent : string) (pt : Expr)
    (gen ign : bool) (skip : flagStringSet) (fields : list Field)
    (astOut astOut1 : File) (err1 : option error) :
  withFuncs (sname, StructType fields) fnIdent pt gen ign skip astOut
    = Returns (astOut1, err1) ->
  exists added err2,
    Decls astOut1 = Decls astOut ++ added
    /\ withFuncs (sname, StructType fields) fnIdent pt gen ign ({[X]} ∪ skip) astOut
       = Returns (appendDecls astOut
                    (List.filter (fun d => negb (bool_decide (assignedField d = Some X)))
                       added),
                  err2)
    /\ err2 = match err1 with
              | Some e => Some e
              | None =>
                  match List.filter (fun d => negb (bool_decide (assignedField d = Some X)))
                          added
                  with
                  | [] => Some emptyResult
                  | _ :: _ => None
                  end
              end.
Proof.
  intros Hcall.
  destruct (withFuncs_restricted (isNot X) sname fnIdent pt gen gen ign skip ({[X]} ∪ skip)
              fields astOut astOut1 err1) as (added & err2 & Hdecls & Hcall' & Herr).
  - apply union_subseteq_r.
  - intros name. unfold eligibleName, inSkipSet, isNot.
    destruct (decide (name = X)) as [->|Hne].
    + rewrite (bool_decide_eq_true_2 (X ∈ {[X]} ∪ skip))
        by (apply elem_of_union; left; now apply elem_of_singleton).
      rewrite (bool_decide_eq_true_2 (X = X)) by reflexivity.
      simpl. now rewrite andb_false_r.
    + rewrite (bool_decide_eq_false_2 (name = X)) by assumption.
      simpl negb at 3. rewrite andb_true_r.
      destruct (decide (name ∈ skip)) as [Hin|Hin].
      * rewrite !bool_decide_eq_true_2; auto. apply elem_of_union. now right.
      * rewrite !bool_decide_eq_false_2; auto.
        intros [H|H]%elem_of_union; [apply elem_of_singleton in H|]; contradiction.
  - exact Hcall.
  - assert (Hfilter : List.filter (keepsDecl (isNot X)) added
                      = List.filter (fun d => negb (bool_decide (assignedField d = Some X)))
                          added).
    { apply List.filter_ext. intros d.
      unfold keepsDecl, isNot. destruct (assignedField d) as [n|].
      - destruct (decide (n = X)) as [->|Hne].
        + now rewrite !bool_decide_eq_true_2.
        + rewrite !bool_decide_eq_false_2; congruence.
      - now rewrite bool_decide_eq_false_2. }
    rewrite Hfilter in Hcall', Herr.
    exists added, err2. auto.
Qed.

Lemma skipping_removes_only_that_field_witness :
  exists added err2,
    withFuncs ("A", StructType [mkField ["C"] (Ident "int") None;
                                mkField ["D"] (Ident "bool") None])
      "AFieldSetter" (StarExpr (Ident "A")) false true ({["C"]} ∪ ∅)
      (mkFile "genbuildertest" [])
    = Returns (appendDecls (mkFile "genbuildertest" [])
                 (List.filter (fun d => negb (bool_decide (assignedField d = Some "C")))
                    added),
               err2)
    /\ err2 = match List.filter (fun d => negb (bool_decide (assignedField d = Some "C")))
                      added
              with
              | [] => Some emptyResult
              | _ :: _ => None
              end.
Proof.
  assert (Hcall :
    withFuncs ("A", StructType [mkField ["C"] (Ident "int") None;
                                mkField ["D"] (Ident "bool") None])
      "AFieldSetter" (StarExpr (Ident "A")) false true ∅ (mkFile "genbuildertest" [])
    = Returns (mkFile "genbuildertest"
                 [newFunc "A" "AFieldSetter" (StarExpr (Ident "A")) (Ident "int") "C";
                  newFunc "A" "AFieldSetter" (StarExpr (Ident "A")) (Ident "bool") "D"],
               None)) by (vm_compute; reflexivity).
  destruct (skipping_removes_only_that_field "C" _ _ _ _ _ _ _ _ _ _ Hcall)
    as (added & err2 & _ & Hcall' & Herr).
  exists added, err2. split; [exact Hcall'|exact Herr].
Defined.

(** X7.  [generateForUnexportedFields] decides about the names that begin
    with a lower-case byte and about nothing else.  If [withFuncs] returns
    with the option on, then with the option off it returns too and appends
    the same declarations without the setters of those names, in the same
    order.  An error of the first call is the error of the second; after a
    first call without error the second returns the empty-result error if no
    declaration is left, and no error if one is. *)
Theorem unexported_option_removes_only_lower_case_names (sname fnIdent : string)
    (pt : Expr) (ign : bool) (skip : flagStringSet) (fields : list Field)
    (astOut astOut1 : File) (err1 : option error) :
  withFuncs (sname, StructType fields) fnIdent pt true ign skip astOut
    = Returns (astOut1, err1) ->
  exists added err2,
    Decls astOut1 = Decls astOut ++ added
    /\ withFuncs (sname, StructType fields) fnIdent pt false ign skip astOut
       = Returns (appendDecls astOut (List.filter (keepsDecl exportedFirstByte) added), err2)
    /\ err2 = match err1 with
              | Some e => Some e
              | None =>
                  match List.filter (keepsDecl exportedFirstByte) added with
                  | [] => Some emptyResult
                  | _ :: _ => None
                  end
              end.
Proof.
  apply withFuncs_restricted; [reflexivity|].
  intros name. unfold eligibleName, unexportedRule, exportedFirstByte. simpl.
  now rewrite !andb_false_r, !andb_true_r.
Qed.

Lemma unexported_option_removes_only_lower_case_names_witness :
  exists added err2,
    withFuncs ("A", StructType [mkField ["e"; "F"] (Ident "int") None])
      "AFieldSetter" (StarExpr (Ident "A")) false true ∅ (mkFile "genbuildertest" [])
    = Returns (appendDecls (mkFile "genbuildertest" [])
                 (List.filter (keepsDecl exportedFirstByte) added), err2)
    /\ err2 = match List.filter (keepsDecl exportedFirstByte) added with
              | [] => Some emptyResult
              | _ :: _ => None
              end.
Proof.
  assert (Hcall :
    withFuncs ("A", StructType [mkField ["e"; "F"] (Ident "int") None])
      "AFieldSetter" (StarExpr (Ident "A")) true true ∅ (mkFile "genbuildertest" [])
    = Returns (mkFile "genbuildertest"
                 [newFunc "A" "AFieldSetter" (StarExpr (Ident "A")) (Ident "int") "e";
                  newFunc "A" "AFieldSetter" (StarExpr (Ident "A")) (Ident "int") "F"],
               None)) by (vm_compute; reflexivity).
  destruct (unexported_option_removes_only_lower_case_names _ _ _ _ _ _ _ _ _ Hcall)
    as (added & err2 & _ & Hcall' & Herr).
  exists added, err2. split; [exact Hcall'|exact Herr].
Defined.

(** ** The signatures in the file printed *)

(** X8.  The declarations of a successful run fit together.  The first one
    declares the function type, named by [funcTypeIdent] from the requested
    struct name, with one parameter, a pointer to that struct, and no result.
    Every other one is a function with the declared type as its only result,
    and the closure it returns has that very signature: one parameter, a
    pointer to the struct, and no result. *)
Theorem setters_return_the_declared_type {Out : Type}
    (ParseFile : string -> File + string) (Fprint : File -> Out * option string)
    (opts : flagOpts) (out : Out) :
  run ParseFile Fprint opts = Returns (Some out, None) ->
  exists astOut t setters,
    Fprint astOut = (out, None)
    /\ Decls astOut = t :: setters
    /\ let fnIdent := funcTypeIdent (structTypeName opts) (exportFnType opts) in
       let pointer := StarExpr (Ident (structTypeName opts)) in
       funcTypeOf t = Some (fnIdent, pointer)
       /\ forall d, d ∈ setters ->
            isFuncDecl d = true
            /\ setterResults d = Some [Ident fnIdent]
            /\ closureSignature d = Some ([pointer], None).
Proof.
  intros Hrun.
  apply run_success_inv in Hrun as (astF & sname & fields & Hparse & Hfind & _ & _ & Hp).
  apply findRequestedStructType_Some in Hfind as Hname. destruct Hname as [Hname _].
  simpl in Hname. subst sname.
  exists (synthesized opts astF (structTypeName opts) fields). eexists. eexists.
  split; [exact Hp|]. split; [reflexivity|]. cbn zeta. split; [reflexivity|].
  intros d Hd. unfold settersOf in Hd.
  apply list_elem_of_In, in_map_iff in Hd as (p & <- & _). repeat split.
Qed.

Lemma setters_return_the_declared_type_witness :
  exists astOut t setters,
    Decls astOut = t :: setters
    /\ funcTypeOf t = Some ("AFieldSetter", StarExpr (Ident "A")).
Proof.
  destruct (setters_return_the_declared_type (parsesTo structAA) astPrinter (defaultOpts "A")
              (synthesized (defaultOpts "A") structAA "A" [mkField ["A"] (Ident "int") None])
              eq_refl) as (astOut & t & setters & _ & Hdecls & Ht & _).
  exists astOut, t, setters. split; [exact Hdecls|exact Ht].
Defined.

(** X9.  A successful run prints no qualified name in a parameter type.  The
    parameter type of every setter is the type expression of a group of the
    struct that holds the assigned field, and no [SelectorExpr] occurs in it:
    the generated file needs no import for its signatures. *)
Theorem setter_parameter_types_need_no_import {Out : Type}
    (ParseFile : string -> File + string) (Fprint : File -> Out * option string)
    (opts : flagOpts) (out : Out) :
  run ParseFile Fprint opts = Returns (Some out, None) ->
  exists astF sname fields astOut,
    ParseFile (definitionFile opts) = inl astF
    /\ findRequestedStructType astF (structTypeName opts) = Some (sname, StructType fields)
    /\ Fprint astOut = (out, None)
    /\ forall d, d ∈ Decls astOut -> isFuncDecl d = true ->
         exists g name,
           g ∈ fields /\ name ∈ Names g
           /\ assignedField d = Some name
           /\ setterParamType d = Some (Type_ g)
           /\ exprHasSelector (Type_ g) = false
           /\ Names g <> [].
Proof.
  intros Hrun.
  apply run_success_inv in Hrun as (astF & sname & fields & Hparse & Hfind & _ & _ & Hp).
  exists astF, sname, fields, (synthesized opts astF sname fields).
  repeat split; auto.
  intros d Hd Hfn. unfold synthesized, settersOf in Hd. cbn [Decls] in Hd.
  apply elem_of_cons in Hd as [->|Hd]; [discriminate|].
  apply list_elem_of_In, in_map_iff in Hd as ([ty name] & <- & Hin).
  apply list_elem_of_In, eligibleFields_elem in Hin as (g & Hg & Hu & <- & Hname & _).
  unfold unsupported in Hu. apply orb_false_iff in Hu as [Hemb Himp].
  exists g, name. repeat split; auto.
  unfold embedded in Hemb. now apply bool_decide_eq_false in Hemb.
Qed.

Lemma setter_parameter_types_need_no_import_witness :
  exists astOut, forall d, d ∈ Decls astOut -> isFuncDecl d = true ->
    exists ty, setterParamType d = Some ty /\ exprHasSelector ty = false.
Proof.
  destruct (setter_parameter_types_need_no_import (parsesTo structAA) astPrinter
              (defaultOpts "A")
              (synthesized (defaultOpts "A") structAA "A" [mkField ["A"] (Ident "int") None])
              eq_refl) as (astF & sname & fields & astOut & _ & _ & _ & H).
  exists astOut. intros d Hd Hfn.
  destruct (H d Hd Hfn) as (g & name & _ & _ & _ & Hty & Hsel & _). eauto.
Defined.

(** ** The two helpers for the case of the first letter *)

(** X10.  [withFirstCharLower] and [withFirstCharUppper] return a string of
    the same length as each other.  It is the length of the argument when the
    argument is empty or begins with an ASCII byte, and two bytes more for
    any other argument: the three bytes of U+FFFD stand where the first byte
    stood. *)
Theorem case_helpers_keep_the_length_or_add_two (s : string) :
  String.length (withFirstCharLower s) = String.length (withFirstCharUppper s)
  /\ String.length (withFirstCharLower s)
     = (String.length s
        + match s with
          | String b _ => if (byteVal b <? RuneSelf)%Z then 0 else 2
          | EmptyString => 0
          end)%nat.
Proof.
  destruct s as [|b rest]; [split; reflexivity|].
  unfold withFirstCharLower, withFirstCharUppper, strings_ToLower, strings_ToUpper.
  cbn zeta. destruct (byteVal b <? RuneSelf).
  - destruct (_ && _), (_ && _); cbv [String.append String.length]; split; lia.
  - unfold RuneError. cbv [String.append String.length]. fold String.length. split; lia.
Qed.

(** X11.  On a name that begins with an ASCII byte the two helpers are
    idempotent and each undoes the other's work, so the name of the function
    type does not depend on the case of the struct name's first letter. *)
Theorem case_helpers_on_ascii_initial_names (b : ascii) (rest : string)
    (exportFnType : bool) :
  byteVal b < RuneSelf ->
  let s := String b rest in
  withFirstCharLower (withFirstCharLower s) = withFirstCharLower s
  /\ withFirstCharUppper (withFirstCharUppper s) = withFirstCharUppper s
  /\ withFirstCharLower (withFirstCharUppper s) = withFirstCharLower s
  /\ withFirstCharUppper (withFirstCharLower s) = withFirstCharUppper s
  /\ funcTypeIdent (withFirstCharLower s) exportFnType = funcTypeIdent s exportFnType
  /\ funcTypeIdent (withFirstCharUppper s) exportFnType = funcTypeIdent s exportFnType.
Proof.
  intros Hb s. subst s.
  assert (H : withFirstCharLower (withFirstCharLower (String b rest))
                = withFirstCharLower (String b rest)
              /\ withFirstCharUppper (withFirstCharUppper (String b rest))
                 = withFirstCharUppper (String b rest)
              /\ withFirstCharLower (withFirstCharUppper (String b rest))
                 = withFirstCharLower (String b rest)
              /\ withFirstCharUppper (withFirstCharLower (String b rest))
                 = withFirstCharUppper (String b rest)).
  { destruct b as [[] [] [] [] [] [] [] []];
      first [ exfalso; vm_compute in Hb; discriminate
            | repeat split; reflexivity ]. }
  destruct H as (H1 & H2 & H3 & H4). repeat split; try assumption.
  - unfold funcTypeIdent. destruct exportFnType; congruence.
  - unfold funcTypeIdent. destruct exportFnType; congruence.
Qed.

Lemma case_helpers_on_ascii_initial_names_witness :
  funcTypeIdent (withFirstCharLower "Config") true = funcTypeIdent "Config" true.
Proof.
  destruct (case_helpers_on_ascii_initial_names "C"%char "onfig" true)
    as (_ & _ & _ & _ & H & _); [vm_compute; reflexivity|exact H].
Defined.

(** ** What the walk over a field's type looks for *)

Lemma fieldHasSelector_Type (fd : Field) : fieldHasSelector fd = exprHasSelector (Type_ fd).
Proof. now destruct fd. Qed.

Lemma existsb_elem {A : Type} (f : A -> bool) (l : list A) :
  existsb f l = true <-> exists a, a ∈ l /\ f a = true.
Proof.
  rewrite existsb_exists. split; intros (a & Ha & Hf); exists a; split; auto;
    now apply list_elem_of_In.
Qed.

Lemma elem_of_map_Type (c : Expr) (fs : list Field) :
  c ∈ map Type_ fs <-> exists fd, fd ∈ fs /\ Type_ fd = c.
Proof.
  rewrite list_elem_of_In, in_map_iff. split; intros (fd & H1 & H2); exists fd.
  - split; [now apply list_elem_of_In|exact H1].
  - split; [exact H2|now apply list_elem_of_In].
Qed.

Lemma existsb_fields (fs : list Field) :
  existsb fieldHasSelector fs = true
  <-> exists c, c ∈ map Type_ fs /\ exprHasSelector c = true.
Proof.
  rewrite existsb_elem. split.
  - intros (fd & Hfd & Hs). exists (Type_ fd). rewrite <- fieldHasSelector_Type.
    split; [|exact Hs]. apply elem_of_map_Type. eauto.
  - intros (c & Hc & Hs). apply elem_of_map_Type in Hc as (fd & Hfd & <-).
    exists fd. now rewrite fieldHasSelector_Type.
Qed.

Lemma stmtHasSelector_exprs (st : Stmt) :
  stmtHasSelector st = true <-> exists c, c ∈ stmtExprs st /\ exprHasSelector c = true.
Proof.
  destruct st as [rs|lhs tok rhs]; cbn [stmtHasSelector stmtExprs].
  - apply existsb_elem.
  - rewrite orb_true_iff, !existsb_elem. split.
    + intros [(c & Hc & Hs)|(c & Hc & Hs)]; exists c; rewrite elem_of_app; auto.
    + intros (c & Hc & Hs). apply elem_of_app in Hc as [Hc|Hc]; eauto.
Qed.

(** A node holds a [SelectorExpr] exactly if it is one or a node directly
    below it holds one. *)
Lemma exprHasSelector_step (e : Expr) :
  exprHasSelector e = true
  <-> (exists x sel, e = SelectorExpr x sel)
      \/ exists c, c ∈ subExprs e /\ exprHasSelector c = true.
Proof.
  destruct e as [n|v|x|x sel|x|elt|len elt|k v|v|ps rs|fs|ms|t body|k es];
    cbn [exprHasSelector subExprs].
  - split; [discriminate|]. intros [(x & sel & [=])|(c & Hc & _)]. inversion Hc.
  - split; [discriminate|]. intros [(x & sel & [=])|(c & Hc & _)]. inversion Hc.
  - split.
    + intros H. right. exists x. split; [apply list_elem_of_singleton; reflexivity|exact H].
    + intros [(y & sel & [=])|(c & Hc & Hs)].
      apply list_elem_of_singleton in Hc. now subst.
  - split; [eauto|reflexivity].
  - split.
    + intros H. right. exists x. split; [apply list_elem_of_singleton; reflexivity|exact H].
    + intros [(y & sel & [=])|(c & Hc & Hs)].
      apply list_elem_of_singleton in Hc. now subst.
  - destruct elt as [x|]; cbn.
    + split.
      * intros H. right. exists x. split; [apply list_elem_of_singleton; reflexivity|exact H].
      * intros [(y & sel & [=])|(c & Hc & Hs)].
        apply list_elem_of_singleton in Hc. now subst.
    + split; [discriminate|]. intros [(y & sel & [=])|(c & Hc & _)]. inversion Hc.
  - rewrite orb_true_iff. split.
    + intros [H|H]; right.
      * destruct len as [x|]; [|discriminate]. exists x. split; [|exact H].
        cbn. apply elem_of_cons. now left.
      * exists elt. split; [|exact H]. apply elem_of_app. right.
        apply list_elem_of_singleton; reflexivity.
    + intros [(y & sel & [=])|(c & Hc & Hs)].
      apply elem_of_app in Hc as [Hc|Hc].
      * destruct len as [x|]; cbn in Hc; [|inversion Hc].
        apply list_elem_of_singleton in Hc. subst. now left.
      * apply list_elem_of_singleton in Hc. subst. now right.
  - rewrite orb_true_iff. split.
    + intros [H|H]; right; [exists k|exists v]; (split; [|exact H]).
      * apply elem_of_cons. now left.
      * apply elem_of_cons. right. apply list_elem_of_singleton; reflexivity.
    + intros [(y & sel & [=])|(c & Hc & Hs)].
      apply elem_of_cons in Hc as [->|Hc]; [now left|].
      apply list_elem_of_singleton in Hc. subst. now right.
  - split.
    + intros H. right. exists v. split; [apply list_elem_of_singleton; reflexivity|exact H].
    + intros [(y & sel & [=])|(c & Hc & Hs)].
      apply list_elem_of_singleton in Hc. now subst.
  - rewrite orb_true_iff. split.
    + intros [H|H]; right.
      * apply existsb_fields in H as (c & Hc & Hs). exists c. rewrite elem_of_app. auto.
      * destruct rs as [rs|]; [|discriminate]. cbn in H.
        apply existsb_fields in H as (c & Hc & Hs). exists c. rewrite elem_of_app. auto.
    + intros [(y & sel & [=])|(c & Hc & Hs)].
      apply elem_of_app in Hc as [Hc|Hc].
      * left. apply existsb_fields. eauto.
      * destruct rs as [rs|]; cbn in Hc; [|inversion Hc].
        right. cbn. apply existsb_fields. eauto.
  - split.
    + intros H. right. now apply existsb_fields.
    + intros [(y & sel & [=])|H]. now apply existsb_fields.
  - split.
    + intros H. right. now apply existsb_fields.
    + intros [(y & sel & [=])|H]. now apply existsb_fields.
  - rewrite orb_true_iff. split.
    + intros [H|H]; right.
      * exists t. split; [apply elem_of_cons; now left|exact H].
      * apply existsb_elem in H as (st & Hst & Hs).
        apply stmtHasSelector_exprs in Hs as (c & Hc & Hs).
        exists c. split; [|exact Hs]. apply elem_of_cons. right.
        apply list_elem_of_In, in_flat_map. exists st.
        split; now apply list_elem_of_In.
    + intros [(y & sel & [=])|(c & Hc & Hs)].
      apply elem_of_cons in Hc as [->|Hc]; [now left|]. right.
      apply list_elem_of_In, in_flat_map in Hc as (st & Hst & Hc).
      apply existsb_elem. exists st. split; [now apply list_elem_of_In|].
      apply stmtHasSelector_exprs. exists c. split; [now apply list_elem_of_In|exact Hs].
  - split.
    + intros H. right. now apply existsb_elem.
    + intros [(y & sel & [=])|H]. now apply existsb_elem.
Qed.

Lemma within_selector (e d : Expr) :
  within e d -> exprHasSelector d = true -> exprHasSelector e = true.
Proof.
  induction 1 as [e|e c d Hc _ IH]; [auto|].
  intros Hd. apply exprHasSelector_step. right. exists c. auto.
Qed.

Lemma selector_within :
  (forall e, exprHasSelector e = true -> exists x sel, within e (SelectorExpr x sel))
  /\ (forall fd, fieldHasSelector fd = true ->
        exists x sel, within (Type_ fd) (SelectorExpr x sel))
  /\ (forall st, stmtHasSelector st = true ->
        exists c x sel, c ∈ stmtExprs st /\ within c (SelectorExpr x sel)).
Proof.
  pose (P := fun e => exprHasSelector e = true -> exists x sel, within e (SelectorExpr x sel)).
  assert (Hstep : forall e,
             (forall c, c ∈ subExprs e -> P c) -> P e).
  { intros e IH He. apply exprHasSelector_step in He as [(x & sel & ->)|(c & Hc & Hs)].
    - exists x, sel. constructor.
    - destruct (IH c Hc Hs) as (x & sel & Hw). exists x, sel.
      now apply within_below with c. }
  assert (HP : forall e, P e).
  { apply (Expr_all P (fun fd => P (Type_ fd))
             (fun st => forall c, c ∈ stmtExprs st -> P c)).
    - intros n. apply Hstep. intros c Hc. inversion Hc.
    - intros v. apply Hstep. intros c Hc. inversion Hc.
    - intros x IH. apply Hstep. intros c Hc. apply list_elem_of_singleton in Hc. now subst.
    - intros x sel IH. apply Hstep. intros c Hc.
      apply list_elem_of_singleton in Hc. now subst.
    - intros x IH. apply Hstep. intros c Hc. apply list_elem_of_singleton in Hc. now subst.
    - intros [x|] IH; apply Hstep; intros c Hc; cbn in Hc.
      + apply list_elem_of_singleton in Hc. now subst.
      + inversion Hc.
    - intros len elt IHl IHe. apply Hstep. intros c Hc. cbn in Hc.
      apply elem_of_app in Hc as [Hc|Hc].
      + destruct len as [x|]; cbn in Hc; [|inversion Hc].
        apply list_elem_of_singleton in Hc. now subst.
      + apply list_elem_of_singleton in Hc. now subst.
    - intros k v IHk IHv. apply Hstep. intros c Hc. cbn in Hc.
      apply elem_of_cons in Hc as [->|Hc]; [assumption|].
      apply list_elem_of_singleton in Hc. now subst.
    - intros v IH. apply Hstep. intros c Hc. apply list_elem_of_singleton in Hc. now subst.
    - intros ps rs IHp IHr. apply Hstep. intros c Hc. cbn in Hc.
      apply elem_of_app in Hc as [Hc|Hc].
      + apply elem_of_map_Type in Hc as (fd & Hfd & <-).
        rewrite Forall_forall in IHp. apply IHp. assumption.
      + destruct rs as [rs|]; cbn in Hc, IHr; [|inversion Hc].
        apply elem_of_map_Type in Hc as (fd & Hfd & <-).
        rewrite Forall_forall in IHr. apply IHr. assumption.
    - intros fs IH. apply Hstep. intros c Hc. cbn in Hc.
      apply elem_of_map_Type in Hc as (fd & Hfd & <-).
      rewrite Forall_forall in IH. apply IH. first [assumption|now apply list_elem_of_In].
    - intros fs IH. apply Hstep. intros c Hc. cbn in Hc.
      apply elem_of_map_Type in Hc as (fd & Hfd & <-).
      rewrite Forall_forall in IH. apply IH. first [assumption|now apply list_elem_of_In].
    - intros t body IHt IHb. apply Hstep. intros c Hc. cbn in Hc.
      apply elem_of_cons in Hc as [->|Hc]; [assumption|].
      apply list_elem_of_In, in_flat_map in Hc as (st & Hst & Hc).
      rewrite Forall_forall in IHb. apply (IHb st); now apply list_elem_of_In.
    - intros k es IH. apply Hstep. intros c Hc. cbn in Hc.
      rewrite Forall_forall in IH. apply IH. first [assumption|now apply list_elem_of_In].
    - intros ns t tag IH. exact IH.
    - intros rs IH c Hc. cbn in Hc.
      rewrite Forall_forall in IH. apply IH. first [assumption|now apply list_elem_of_In].
    - intros lhs tok rhs IHl IHr c Hc. cbn in Hc.
      rewrite Forall_forall in IHl, IHr.
      apply elem_of_app in Hc as [Hc|Hc]; [apply IHl|apply IHr]; assumption. }
  repeat split.
  - exact HP.
  - intros fd H. rewrite fieldHasSelector_Type in H. now apply HP.
  - intros st H. apply stmtHasSelector_exprs in H as (c & Hc & Hs).
    destruct (HP c Hs) as (x & sel & Hw). eauto.
Qed.

(** X12.  [fieldContainsImport] answers true exactly for a field whose type
    expression is a [SelectorExpr] or has one below it at any depth: under a
    pointer, in an array's length or element, a map's key or value, a
    channel's element, a function's parameters or results, the fields of a
    struct, the methods of an interface. *)
Theorem fieldContainsImport_finds_every_selector (field : Field) :
  fieldContainsImport field = true
  <-> exists x sel, within (Type_ field) (SelectorExpr x sel).
Proof.
  rewrite fieldContainsImport_spec. unfold referencesImportedPackage. split.
  - apply selector_within.
  - intros (x & sel & Hw). now apply (within_selector _ _ Hw).
Qed.

(** ** The flag value [flagStringSet] *)

Lemma strings_Split_nonempty (sep : ascii) (s : string) : strings_Split sep s <> [].
Proof.
  destruct s as [|c s]; cbn; [discriminate|].
  destruct (Ascii.eqb c sep); [discriminate|].
  destruct (strings_Split sep s); discriminate.
Qed.

Lemma strings_Split_cons (sep c : ascii) (s : string) :
  Ascii.eqb c sep = false ->
  exists piece pieces,
    strings_Split sep s = piece :: pieces
    /\ strings_Split sep (String c s) = String c piece :: pieces.
Proof.
  intros Hc. cbn. rewrite Hc.
  destruct (strings_Split sep s) as [|piece pieces] eqn:E.
  - now apply strings_Split_nonempty in E.
  - eauto.
Qed.

Lemma commaFree_cons (c : ascii) (s : string) :
  commaFree (String c s) = true <-> Ascii.eqb c ","%char = false /\ commaFree s = true.
Proof.
  unfold commaFree. cbn. rewrite andb_true_iff, negb_true_iff. tauto.
Qed.

(** Splitting [a +:+ sep +:+ t] where [a] has no comma: [a], then the
    pieces of [t] after the first [skip] bytes of [sep +:+ t]. *)
Lemma strings_Split_piece (a t : string) :
  commaFree a = true ->
  strings_Split ","%char (a +:+ String ","%char t) = a :: strings_Split ","%char t.
Proof.
  induction a as [|c a IH]; intros Ha.
  - reflexivity.
  - apply commaFree_cons in Ha as [Hc Ha].
    change (String c a +:+ String ","%char t) with (String c (a +:+ String ","%char t)).
    destruct (strings_Split_cons ","%char c (a +:+ String ","%char t) Hc)
      as (piece & pieces & E1 & E2).
    rewrite E2. rewrite (IH Ha) in E1. now injection E1 as <- <-.
Qed.

Lemma strings_Split_commaFree (a : string) :
  commaFree a = true -> strings_Split ","%char a = [a].
Proof.
  induction a as [|c a IH]; intros Ha; [reflexivity|].
  apply commaFree_cons in Ha as [Hc Ha].
  destruct (strings_Split_cons ","%char c a Hc) as (piece & pieces & E1 & E2).
  rewrite E2. rewrite (IH Ha) in E1. now injection E1 as <- <-.
Qed.

Lemma strings_Join_cons (x y : string) (l : list string) (sep : string) :
  strings_Join (x :: y :: l) sep = x +:+ sep +:+ strings_Join (y :: l) sep.
Proof. reflexivity. Qed.

Lemma strings_Split_Join (keys : list string) :
  keys <> [] -> Forall (fun k => commaFree k = true) keys ->
  strings_Split ","%char (strings_Join keys ",") = keys.
Proof.
  induction keys as [|k [|k' keys] IH]; intros Hne Hall; [congruence| |].
  - apply strings_Split_commaFree. now inversion Hall.
  - rewrite strings_Join_cons. inversion Hall as [|? ? Hk Hall']; subst.
    change (k +:+ "," +:+ strings_Join (k' :: keys) ",")
      with (k +:+ String ","%char (strings_Join (k' :: keys) ",")).
    rewrite strings_Split_piece by exact Hk. f_equal. now apply IH.
Qed.

Lemma strings_Join_Split (str : string) :
  strings_Join (strings_Split ","%char str) "," = str.
Proof.
  induction str as [|c str IH]; [reflexivity|]. cbn [strings_Split].
  destruct (Ascii.eqb c ","%char) eqn:Hc.
  - apply Ascii.eqb_eq in Hc as ->.
    destruct (strings_Split ","%char str) as [|p ps] eqn:E;
      [now apply strings_Split_nonempty in E|].
    rewrite strings_Join_cons, IH. reflexivity.
  - destruct (strings_Split ","%char str) as [|p ps] eqn:E;
      [now apply strings_Split_nonempty in E|].
    destruct ps as [|p' ps].
    + cbn in IH |- *. now rewrite IH.
    + rewrite strings_Join_cons in IH |- *. rewrite <- IH. reflexivity.
Qed.

Lemma strings_Split_pieces_commaFree (str : string) :
  Forall (fun k => commaFree k = true) (strings_Split ","%char str).
Proof.
  induction str as [|c str IH]; [now repeat constructor|]. cbn [strings_Split].
  destruct (Ascii.eqb c ","%char) eqn:Hc.
  - constructor; [reflexivity|exact IH].
  - destruct (strings_Split ","%char str) as [|p ps]; [now repeat constructor; apply commaFree_cons|].
    inversion IH; subst. constructor; [|assumption]. now apply commaFree_cons.
Qed.

Lemma foldl_insert (l : list string) (acc : flagStringSet) :
  foldl (fun (result : flagStringSet) str => {[str]} ∪ result) acc l
  = list_to_set l ∪ acc.
Proof.
  revert acc. induction l as [|x l IH]; intros acc; cbn [foldl list_to_set].
  - now rewrite union_empty_l_L.
  - rewrite IH. apply set_eq. intros y. rewrite !elem_of_union. tauto.
Qed.

Lemma flagStringSet_Set_pieces (s : flagStringSet) (str : string) :
  flagStringSet_Set s str = (list_to_set (strings_Split ","%char str), None).
Proof.
  unfold flagStringSet_Set. cbn zeta. rewrite foldl_insert. f_equal.
  apply union_empty_r_L.
Qed.

(** X13.  [flagStringSet.Set] forgets what the receiver held and keeps the
    pieces of its argument between the commas.  The set is never empty, even
    for the empty argument, which leaves the empty name in it; no element has
    a comma; and the pieces, joined by commas in their order, are the
    argument again. *)
Theorem flagStringSet_Set_keeps_the_pieces (s : flagStringSet) (str : string) :
  let result := fst (flagStringSet_Set s str) in
  snd (flagStringSet_Set s str) = None
  /\ result = fst (flagStringSet_Set ∅ str)
  /\ (forall x, x ∈ result <-> x ∈ strings_Split ","%char str)
  /\ result <> ∅
  /\ (forall x, x ∈ result -> commaFree x = true)
  /\ strings_Join (strings_Split ","%char str) "," = str.
Proof.
  cbn zeta. rewrite !flagStringSet_Set_pieces. cbn [fst snd].
  assert (Hin : forall x : string,
             x ∈ (list_to_set (strings_Split ","%char str) : gset string)
             <-> x ∈ strings_Split ","%char str) by (intros x; apply elem_of_list_to_set).
  repeat split; try apply Hin.
  - intros Hempty. destruct (strings_Split ","%char str) as [|p ps] eqn:E;
      [now apply strings_Split_nonempty in E|].
    assert (Hp : p ∈ (∅ : gset string)); [|now apply not_elem_of_empty in Hp].
    rewrite <- Hempty. apply Hin. now left.
  - intros x Hx. apply Hin in Hx.
    pose proof (strings_Split_pieces_commaFree str) as Hall.
    rewrite Forall_forall in Hall. now apply Hall.
  - apply strings_Join_Split.
Qed.

(** X14.  A list of names without commas, joined by commas and given to
    [flagStringSet.Set], comes back as the set of those names. *)
Theorem flagStringSet_Set_reads_a_joined_list (s : flagStringSet) (keys : list string) :
  keys <> [] -> Forall (fun k => commaFree k = true) keys ->
  flagStringSet_Set s (strings_Join keys ",") = (list_to_set keys, None).
Proof.
  intros Hne Hall. rewrite flagStringSet_Set_pieces. now rewrite strings_Split_Join.
Qed.

Lemma flagStringSet_Set_reads_a_joined_list_witness :
  flagStringSet_Set {["old"]} "C,D" = (list_to_set ["C"; "D"], None).
Proof.
  apply (flagStringSet_Set_reads_a_joined_list {["old"]} ["C"; "D"]).
  - discriminate.
  - repeat constructor.
Defined.

(** X15.  [flagStringSet.String] does not write what [flagStringSet.Set]
    reads.  It joins with a comma and a space, so [Set] on the string of two
    or more names without commas gives the first name and every other name
    with a space before it. *)
Theorem flagStringSet_String_is_not_read_back (s : flagStringSet) (k : string)
    (keys : list string) :
  Forall (fun k => commaFree k = true) (k :: keys) ->
  flagStringSet_Set s (flagStringSet_String (k :: keys))
  = (list_to_set (k :: map (String " "%char) keys), None).
Proof.
  intros Hall. rewrite flagStringSet_Set_pieces. do 2 f_equal.
  unfold flagStringSet_String. revert k Hall.
  induction keys as [|k' keys IH]; intros k Hall.
  - apply strings_Split_commaFree. now inversion Hall.
  - rewrite strings_Join_cons. inversion Hall as [|? ? Hk Hall']; subst.
    change (k +:+ ", " +:+ strings_Join (k' :: keys) ", ")
      with (k +:+ String ","%char (String " "%char (strings_Join (k' :: keys) ", "))).
    rewrite strings_Split_piece by exact Hk. f_equal.
    destruct (strings_Split_cons ","%char " "%char (strings_Join (k' :: keys) ", ") eq_refl)
      as (piece & pieces & E1 & E2).
    rewrite E2. rewrite (IH k' Hall') in E1. now injection E1 as <- <-.
Qed.

Lemma flagStringSet_String_is_not_read_back_witness :
  flagStringSet_Set ∅ (flagStringSet_String ["C"; "D"]) = (list_to_set ["C"; " D"], None).
Proof.
  apply (flagStringSet_String_is_not_read_back ∅ "C" ["D"]). repeat constructor.
Defined.

(** ** [getFlags], [fail] and [main] *)

Lemma length_append (a b : string) :
  String.length (a +:+ b) = (String.length a + String.length b)%nat.
Proof.
  induction a as [|c a IH]; [reflexivity|].
  change (S (String.length (a +:+ b)) = S (String.length a + String.length b)).
  now rewrite IH.
Qed.

Lemma length_dropBytes (n : nat) (s : string) :
  String.length (dropBytes n s) = (String.length s - n)%nat.
Proof.
  revert s. induction n as [|n IH]; intros s.
  - cbn. lia.
  - destruct s as [|c s]; [reflexivity|]. cbn. apply IH.
Qed.

Lemma substring_all (s : string) : String.substring 0 (String.length s) s = s.
Proof. induction s as [|c s IH]; [reflexivity|]. cbn. now rewrite IH. Qed.

Lemma length_overwrite (old data : string) :
  String.length (overwrite old data) = Nat.max (String.length data) (String.length old).
Proof. unfold overwrite. rewrite length_append, length_dropBytes. lia. Qed.

Lemma fail_exits_1 (msg : string) (w : world) :
  exists w', fail msg w = Exit 1 w'
             /\ stdout w' = stdout w /\ files w' = files w
             /\ stderr w' = if bool_decide (msg = EmptyString) then stderr w
                            else stderr w +:+ msg +:+ newline.
Proof.
  unfold fail. cbn zeta. eexists. split; [reflexivity|].
  destruct (bool_decide (msg = EmptyString)); repeat split.
Qed.

Lemma run_returns_something {Out : Type} (ParseFile : string -> File + string)
    (Fprint : File -> Out * option string) (opts : flagOpts) :
  run ParseFile Fprint opts <> Returns (None, None).
Proof.
  destruct (run_cases ParseFile Fprint opts)
    as [(msg & _ & ->)|[(astF & _ & _ & ->)|(astF & sname & fields & _ & _ & ->)]];
    try discriminate.
  destruct (List.find _ fields) as [g|].
  - now destruct (unsupported g).
  - destruct (eligibleFields _ _ fields); [discriminate|].
    destruct (printed_cases Fprint (synthesized opts astF sname fields))
      as [(out & _ & ->)|(out & msg & _ & ->)]; discriminate.
Qed.

Section process_properties.
Variable ParseFile : string -> File + string.
Variable Fprint : File -> string * option string.
Variable flagParse : list string -> world -> flagOpts * option string + ended.
Variable usage : string.
Variable openError : world -> string -> option string.
Variable write : string -> string -> nat * option string.

Lemma getFlags_parsed (args : list string) (w : world) (opts : flagOpts) :
  flagParse args w = inl (opts, None) ->
  getFlags flagParse usage args w
  = if bool_decide (definitionFile opts = EmptyString)
       || bool_decide (structTypeName opts = EmptyString)
    then inr (Exit 1 (mkWorld (stdout w) (stderr w +:+ usage) (files w)))
    else inl opts.
Proof. intros Hparse. unfold getFlags. now rewrite Hparse. Qed.

Lemma copyOut_ends (opts : flagOpts) (out : string) (w : world) :
  exists code w',
    copyOut write opts out w = Exit code w'
    /\ (code = 0 /\ snd (write (outFile opts) out) = None /\ stderr w' = stderr w
        \/ code = 1 /\ snd (write (outFile opts) out) <> None)
    /\ (forall f, f <> outFile opts -> files w' !! f = files w !! f)
    /\ (outFile opts <> EmptyString -> stdout w' = stdout w)
    /\ (outFile opts = EmptyString -> files w' = files w).
Proof.
  unfold copyOut. destruct (write (outFile opts) out) as [n [msg|]]; cbn [snd].
  - destruct (fail_exits_1 msg
                (if bool_decide (outFile opts = EmptyString)
                 then mkWorld (stdout w +:+ String.substring 0 n out) (stderr w) (files w)
                 else mkWorld (stdout w) (stderr w)
                        (<[outFile opts :=
                             overwrite (default EmptyString (files w !! outFile opts))
                               (String.substring 0 n out)]> (files w))))
      as (w' & -> & Hout & Hfiles & _).
    exists 1, w'. split; [reflexivity|]. split; [right; split; [reflexivity|discriminate]|].
    rewrite Hout, Hfiles. destruct (bool_decide_reflect (outFile opts = EmptyString)) as [E|E];
      cbn [files stdout]; repeat split; try congruence.
    intros f Hf. now rewrite lookup_insert_ne.
  - eexists 0, _. split; [reflexivity|].
    destruct (bool_decide_reflect (outFile opts = EmptyString)) as [E|E];
      cbn [files stdout stderr]; repeat split; try congruence; try (left; now repeat split).
    intros f Hf. now rewrite lookup_insert_ne.
Qed.

(** X16.  Once the flags are parsed, [main] panics only where [run] does,
    with both required flags given, and in every other case ends with code 0
    or 1.  When it ends it has changed no file but the out file and, given an
    out file, has written nothing to standard output.  Code 0 means that both
    required flags were there, [run] returned output, and nothing was written
    to standard error. *)
Theorem main_touches_only_the_out_file (args : list string) (w : world)
    (opts : flagOpts) :
  flagParse args w = inl (opts, None) ->
  (exists m,
     definitionFile opts <> EmptyString
     /\ structTypeName opts <> EmptyString
     /\ run ParseFile Fprint opts = Panics m
     /\ main ParseFile Fprint flagParse usage openError write args w = Panics m)
  \/ (exists code w',
        main ParseFile Fprint flagParse usage openError write args w
        = Returns (Exit code w')
        /\ (code = 0 \/ code = 1)
        /\ (forall f, f <> outFile opts -> files w' !! f = files w !! f)
        /\ (outFile opts <> EmptyString -> stdout w' = stdout w)
        /\ (outFile opts = EmptyString -> files w' = files w)
        /\ (code = 0 ->
              stderr w' = stderr w
              /\ definitionFile opts <> EmptyString
              /\ structTypeName opts <> EmptyString
              /\ exists out, run ParseFile Fprint opts = Returns (Some out, None))).
Proof.
  intros Hparse. unfold main. rewrite (getFlags_parsed _ _ _ Hparse).
  destruct (bool_decide_reflect (definitionFile opts = EmptyString)) as [Hd|Hd];
    [right; eexists 1, _; split; [reflexivity|]; repeat split; auto; discriminate|].
  destruct (bool_decide_reflect (structTypeName opts = EmptyString)) as [Hs|Hs];
    [right; eexists 1, _; split; [reflexivity|]; repeat split; auto; discriminate|].
  cbn [orb].
  pose proof (run_returns_something ParseFile Fprint opts) as Hsome.
  destruct (run ParseFile Fprint opts) as [[outReader [e|]]|m]; cbn.
  - right. destruct (fail_exits_1 (error_Error e) w) as (w1 & E & Hout & Hfiles & _).
    exists 1, w1. rewrite E, Hout, Hfiles. repeat split; auto; discriminate.
  - destruct (if bool_decide (outFile opts = EmptyString) then None
              else openError w (outFile opts)) as [msg|].
    + right. destruct (fail_exits_1 msg w) as (w1 & E & Hout & Hfiles & _).
      exists 1, w1. rewrite E, Hout, Hfiles. repeat split; auto; discriminate.
    + destruct outReader as [out|]; [|congruence]. right.
      destruct (copyOut_ends opts out w) as (c & w1 & E & Hcode & Hf & Hout & Hfiles).
      exists c, w1. rewrite E. repeat split; auto.
      * destruct Hcode as [(-> & _)|(-> & _)]; auto.
      * destruct Hcode as [(_ & _ & Herr)|(-> & _)]; [exact Herr|discriminate].
      * eauto.
  - left. exists m. auto.
Qed.

(** X17.  An error of [run] ends [main] with code 1 and the error's message
    and a line feed on standard error.  Standard output and the files are as
    they were: the out file is neither created nor touched. *)
Theorem main_reports_the_error_of_run (args : list string) (w : world)
    (opts : flagOpts) (outReader : option string) (e : error) :
  flagParse args w = inl (opts, None) ->
  definitionFile opts <> EmptyString ->
  structTypeName opts <> EmptyString ->
  run ParseFile Fprint opts = Returns (outReader, Some e) ->
  error_Error e <> EmptyString ->
  main ParseFile Fprint flagParse usage openError write args w
  = Returns (Exit 1 (mkWorld (stdout w) (stderr w +:+ error_Error e +:+ newline) (files w))).
Proof.
  intros Hparse Hd Hs Hrun He. unfold main. rewrite (getFlags_parsed _ _ _ Hparse).
  rewrite !bool_decide_eq_false_2 by assumption. cbn [orb]. rewrite Hrun. cbn.
  unfold fail. now rewrite bool_decide_eq_false_2 by assumption.
Qed.

(** X18.  [main] opens the out file without truncating it.  After a run that
    succeeds and a copy that takes every byte, the file holds the output
    followed by what the file held before beyond the output's length, so its
    length is the greater of the two lengths; the two standard streams are as
    they were. *)
Theorem main_overwrites_without_truncating (args : list string) (w : world)
    (opts : flagOpts) (out : string) :
  flagParse args w = inl (opts, None) ->
  definitionFile opts <> EmptyString ->
  structTypeName opts <> EmptyString ->
  outFile opts <> EmptyString ->
  run ParseFile Fprint opts = Returns (Some out, None) ->
  openError w (outFile opts) = None ->
  write (outFile opts) out = (String.length out, None) ->
  let old := default EmptyString (files w !! outFile opts) in
  exists w',
    main ParseFile Fprint flagParse usage openError write args w = Returns (Exit 0 w')
    /\ files w' !! outFile opts = Some (out +:+ dropBytes (String.length out) old)
    /\ String.length (out +:+ dropBytes (String.length out) old)
       = Nat.max (String.length out) (String.length old)
    /\ stdout w' = stdout w /\ stderr w' = stderr w.
Proof.
  intros Hparse Hd Hs Ho Hrun Hopen Hwrite old. unfold main.
  rewrite (getFlags_parsed _ _ _ Hparse).
  rewrite !bool_decide_eq_false_2 by assumption. cbn [orb]. rewrite Hrun. cbn.
  rewrite bool_decide_eq_false_2 by assumption. rewrite Hopen.
  unfold copyOut. rewrite Hwrite, substring_all.
  rewrite bool_decide_eq_false_2 by assumption.
  eexists. split; [reflexivity|]. cbn [files stdout stderr].
  rewrite lookup_insert_eq. repeat split. apply length_overwrite.
Qed.
End process_properties.

Lemma main_touches_only_the_out_file_witness :
  exists code w',
    main (parsesTo structAA) packageClause (parsedAs (toFile "A" "out.go")) "usage"
      noOpenError takesAll [] (mkWorld "" "" ∅)
    = Returns (Exit code w')
    /\ (code = 0 \/ code = 1)
    /\ stdout w' = "".
Proof.
  destruct (main_touches_only_the_out_file (parsesTo structAA) packageClause
              (parsedAs (toFile "A" "out.go")) "usage" noOpenError takesAll
              [] (mkWorld "" "" ∅) (toFile "A" "out.go") eq_refl)
    as [(m & _ & _ & Hrun & _)|(code & w' & Hmain & Hcode & _ & Hout & _)].
  - vm_compute in Hrun. discriminate.
  - exists code, w'. split; [exact Hmain|]. split; [exact Hcode|].
    apply Hout. discriminate.
Defined.

Lemma main_reports_the_error_of_run_witness :
  main (parsesTo structAA) packageClause (parsedAs (toFile "B" "out.go")) "usage"
    noOpenError takesAll [] (mkWorld "" "" ∅)
  = Returns (Exit 1 (mkWorld "" ("" +:+ error_Error typeNotFound +:+ newline) ∅)).
Proof.
  apply (main_reports_the_error_of_run (parsesTo structAA) packageClause
           (parsedAs (toFile "B" "out.go")) "usage" noOpenError takesAll
           [] (mkWorld "" "" ∅) (toFile "B" "out.go") None typeNotFound eq_refl).
  - discriminate.
  - discriminate.
  - vm_compute; reflexivity.
  - discriminate.
Defined.

Lemma main_overwrites_without_truncating_witness :
  exists w',
    main (parsesTo structAA) packageClause (parsedAs (toFile "A" "out.go")) "usage"
      noOpenError takesAll []
      (mkWorld "" "" {["out.go" := "package genbuildertest // and a long tail"]})
    = Returns (Exit 0 w')
    /\ files w' !! "out.go"
       = Some ("package genbuildertest"
               +:+ dropBytes (String.length "package genbuildertest")
                     "package genbuildertest // and a long tail").
Proof.
  destruct (main_overwrites_without_truncating (parsesTo structAA) packageClause
              (parsedAs (toFile "A" "out.go")) "usage" noOpenError takesAll []
              (mkWorld "" "" {["out.go" := "package genbuildertest // and a long tail"]})
              (toFile "A" "out.go") "package genbuildertest" eq_refl)
    as (w' & Hmain & Hfile & _); try discriminate; try reflexivity.
  exists w'. split; [exact Hmain|exact Hfile].
Defined.

(** ** What [run] reads of the definition file *)



